(** * Shallow embedding of the logger of goccmack/goutil (package log).

    Sources: src/log/log.go, src/log/config.go, src/log/interface.go.
    The logger goroutine (logger.run) is modelled as a step function on an
    explicit state: the live Config, the buffered logChan queue, whether
    logChan has been closed, and the trace of requests sent to the
    files.FileSet writer.  Go strings of the file-name handling are
    Stdlib strings of ASCII characters. *)

From Stdlib Require Import ZArith List String Ascii Bool Lia.
From stdpp Require Import base gmap sorting.
Import ListNotations.
Open Scope Z_scope.

(* ------------------------------------------------------------------ *)
(** ** Go string helpers (package strings and path) *)

Module GoStrings.

Local Open Scope string_scope.

(** strings.Split(s, sep) for a one-character separator. *)
Fixpoint Split (sep : ascii) (s : string) : list string :=
  match s with
  | EmptyString => [EmptyString]
  | String c r =>
      let rest := Split sep r in
      if Ascii.eqb c sep then EmptyString :: rest
      else match rest with
           | h :: t => String c h :: t
           | [] => [String c EmptyString]
           end
  end.

(** strings.Join(elems, sep). *)
Fixpoint Join (elems : list string) (sep : string) : string :=
  match elems with
  | [] => EmptyString
  | [x] => x
  | x :: t => String.append x (String.append sep (Join t sep))
  end.

(** strings.Contains(s, substr): substr occurs somewhere in s. *)
Fixpoint Contains (s substr : string) : bool :=
  String.prefix substr s ||
  match s with
  | EmptyString => false
  | String _ r => Contains r substr
  end.

(** The file part of path.Split(p): everything after the last '/'. *)
Definition path_Split_file (p : string) : string :=
  List.last (Split "/"%char p) EmptyString.

End GoStrings.

(* ------------------------------------------------------------------ *)
(** ** Priority (interface.go): [type Priority int] with iota constants *)

Definition Priority := Z.
Definition EXIT : Priority := 0.
Definition PANIC : Priority := 1.
Definition WARNING : Priority := 2.
Definition INFO : Priority := 3.
Definition DEBUG : Priority := 4.

(* ------------------------------------------------------------------ *)
(** ** Config (config.go) *)

Record Config := mkConfig {
  RootDir : string;
  FileName : string;
  NumFiles : Z;
  FileNumBytes : Z;
  cfgPriority : Priority;
  (* comma separated list of files whose DEBUG messages are suppressed *)
  SuppressedFiles : string
}.

(** Config.Clone: a field-by-field copy. *)
Definition Clone (c : Config) : Config :=
  {| RootDir := RootDir c; FileName := FileName c; NumFiles := NumFiles c;
     FileNumBytes := FileNumBytes c; cfgPriority := cfgPriority c;
     SuppressedFiles := SuppressedFiles c |}.

(** Config.Equal, as written in config.go lines 50-61. *)
Definition Equal (c c1 : Config) : bool :=
  if negb (String.eqb (RootDir c) (RootDir c1)) ||
     negb (String.eqb (FileName c) (FileName c1)) ||
     negb (Z.eqb (NumFiles c) (NumFiles c1)) ||
     negb (Z.eqb (FileNumBytes c) (FileNumBytes c1)) ||
     negb (Z.eqb (cfgPriority c) (cfgPriority c1))
  then false
  else true.

(* ------------------------------------------------------------------ *)
(** ** Records written to the FileSet and messages of the logger *)

(** What the logger hands to [l.wtr]: a formatted line is kept as its
    components (timestamp and printf rendering are not modelled). *)
Inductive record :=
  | RMsg (priority : Priority) (fname : string) (line : Z)
         (format : string) (a : list string) (stackTrace : string)
  | RExit (exitCode : Z) (fname : string) (line : Z) (msg : string)
  | RConfig (c : Config).

(** Requests sent to the files.FileSet writer. *)
Inductive wreq :=
  | WWrite (r : record)
  | WSetConfig (maxFiles maxBytes : Z)
  | WClose.

Record logMsgT := mkLogMsg {
  lm_file : string;
  lm_line : Z;
  lm_priority : Priority;
  lm_format : string;
  lm_a : list string
}.

Record configMsg := mkConfigMsg {
  cm_maxFiles : Z;
  cm_maxBytes : Z;
  cm_priority : Priority
}.

Record exitMsg := mkExitMsg {
  em_file : string; em_line : Z; em_exitCode : Z; em_msg : string
}.

Record panicMsg := mkPanicMsg {
  pm_file : string; pm_line : Z; pm_msg : string; pm_stacktrace : string
}.

(* ------------------------------------------------------------------ *)
(** ** logger.isSuppressed and logger.logMsg (log.go 271-317) *)

Definition isSuppressed (cfg : Config) (file : string) (priority : Priority)
  : bool :=
  if priority <? DEBUG then false
  else if String.eqb (SuppressedFiles cfg) EmptyString then false
  else
    let fns := GoStrings.Split "."%char file in
    let fn := GoStrings.Join (firstn (length fns - 1) fns) "." in
    GoStrings.Contains (SuppressedFiles cfg) fn.

(** [Some r] when the line is written, [None] when it is dropped. *)
Definition logMsg (cfg : Config) (file : string) (line : Z)
  (priority : Priority) (format : string) (a : list string)
  (stackTrace : string) : option record :=
  let fname := GoStrings.path_Split_file file in
  if (priority <=? cfgPriority cfg) && negb (isSuppressed cfg fname priority)
  then Some (RMsg priority fname line format a stackTrace)
  else None.

(* ------------------------------------------------------------------ *)
(** ** The logger goroutine (log.go 202-369) *)

(** [logChan] is the buffered channel content, oldest first;
    [logChanClosed] records close(logChan); [wtr] is the sequence of
    requests sent to the files.FileSet, oldest first. *)
Record logger := mkLogger {
  cfg : Config;
  logChan : list logMsgT;
  logChanClosed : bool;
  wtr : list wreq
}.

(** Capacity of logChan: make(chan *logMsg, 1024). *)
Definition logChanCap : nat := 1024.

Definition set_cfg (l : logger) (c : Config) : logger :=
  {| cfg := c; logChan := logChan l; logChanClosed := logChanClosed l;
     wtr := wtr l |}.

Definition set_logChan (l : logger) (q : list logMsgT) : logger :=
  {| cfg := cfg l; logChan := q; logChanClosed := logChanClosed l;
     wtr := wtr l |}.

Definition send_wtr (l : logger) (r : wreq) : logger :=
  {| cfg := cfg l; logChan := logChan l; logChanClosed := logChanClosed l;
     wtr := wtr l ++ [r] |}.

(** logger.write: one Write request to the FileSet. *)
Definition write (l : logger) (r : record) : logger := send_wtr l (WWrite r).

(** logger.logConfig: the six Fprintf lines are kept as one record. *)
Definition logConfig (l : logger) : logger := write l (RConfig (cfg l)).

(** logger.logMsg on the logger state. *)
Definition logMsg_l (l : logger) (file : string) (line : Z)
  (priority : Priority) (format : string) (a : list string)
  (stackTrace : string) : logger :=
  match logMsg (cfg l) file line priority format a stackTrace with
  | Some r => write l r
  | None => l
  end.

(** logger.logExit. *)
Definition logExit (l : logger) (file : string) (line exitCode : Z)
  (msg : string) : logger :=
  write l (RExit exitCode (GoStrings.path_Split_file file) line msg).

(** The loop body of flushLogMsgs, run [n] times. *)
Fixpoint flush_n (n : nat) (l : logger) : logger :=
  match n with
  | O => l
  | S n' =>
      match logChan l with
      | [] => l
      | lm :: rest =>
          flush_n n' (logMsg_l (set_logChan l rest) (lm_file lm) (lm_line lm)
                        (lm_priority lm) (lm_format lm) (lm_a lm) EmptyString)
      end
  end.

(** logger.flushLogMsgs: n := len(logChan), then n receives. *)
Definition flushLogMsgs (l : logger) : logger :=
  flush_n (length (logChan l)) l.

(** logger.close: close(logChan); flush; l.wtr.Close(). *)
Definition close (l : logger) : logger :=
  let l1 := {| cfg := cfg l; logChan := logChan l; logChanClosed := true;
               wtr := wtr l |} in
  send_wtr (flushLogMsgs l1) WClose.

(** The cases of the select statement in logger.run.  [EvRefresh c]
    carries the value returned by readConfigFile(false). *)
Inductive event :=
  | EvClose
  | EvExit (m : exitMsg)
  | EvLog
  | EvPanic (m : panicMsg)
  | EvRefresh (newCfg : Config)
  | EvSetConfig (cm : configMsg)
  | EvGetConfig
  | EvSuppress (s : string).

Inductive run_outcome :=
  | Running (l : logger)           (* the loop continues *)
  | Returned (l : logger)          (* run returned; deferred l.close() ran *)
  | OsExit (code : Z) (l : logger). (* os.Exit(code) after l.close() *)

(** One iteration of the for/select loop of logger.run; [None] when the
    chosen case is not ready (an empty logChan). *)
Definition run_step (l : logger) (ev : event) : option run_outcome :=
  match ev with
  | EvClose => Some (Returned (close l))
  | EvExit m =>
      Some (OsExit (em_exitCode m)
              (close (logExit l (em_file m) (em_line m) (em_exitCode m)
                        (em_msg m))))
  | EvLog =>
      match logChan l with
      | [] => None
      | lm :: rest =>
          Some (Running (logMsg_l (set_logChan l rest) (lm_file lm)
                           (lm_line lm) (lm_priority lm) (lm_format lm)
                           (lm_a lm) EmptyString))
      end
  | EvPanic m =>
      Some (OsExit 1 (close (logMsg_l l (pm_file m) (pm_line m) PANIC
                               (pm_msg m) [] (pm_stacktrace m))))
  | EvRefresh newCfg =>
      if negb (Equal (cfg l) newCfg)
      then Some (Running (logConfig
                            (send_wtr (set_cfg l newCfg)
                               (WSetConfig (NumFiles newCfg)
                                  (FileNumBytes newCfg)))))
      else Some (Running l)
  | EvSetConfig cm =>
      let c := cfg l in
      let c' := {| RootDir := RootDir c; FileName := FileName c;
                   NumFiles := cm_maxFiles cm;
                   FileNumBytes := cm_maxBytes cm;
                   cfgPriority := cm_priority cm;
                   SuppressedFiles := SuppressedFiles c |} in
      let l1 := flushLogMsgs (set_cfg l c') in
      Some (Running (logConfig
                       (send_wtr l1 (WSetConfig (cm_maxFiles cm)
                                       (cm_maxBytes cm)))))
  | EvGetConfig => Some (Running l)
  | EvSuppress s =>
      let c := cfg l in
      let c' := {| RootDir := RootDir c; FileName := FileName c;
                   NumFiles := NumFiles c; FileNumBytes := FileNumBytes c;
                   cfgPriority := cfgPriority c; SuppressedFiles := s |} in
      Some (Running (logConfig (flushLogMsgs (set_cfg l c'))))
  end.

(* ------------------------------------------------------------------ *)
(** ** Priority.String and ToPriority (interface.go 32-63) *)

Module Prio.

(** The bytes of a Go string. *)
Definition bytes (s : string) : list Z :=
  map (fun a => Z.of_nat (nat_of_ascii a)) (list_ascii_of_string s).

Definition cont (b : Z) : bool := (0x80 <=? b) && (b <=? 0xBF).

(** Go's utf8 [first] and [acceptRanges] tables: for a byte that can lead
    a multi-byte sequence, the sequence size and the accepted range of its
    second byte (these ranges exclude overlong forms, surrogates and runes
    above U+10FFFF); [None] for 0x80-0xC1 and 0xF5-0xFF. *)
Definition first (b0 : Z) : option (nat * Z * Z) :=
  if (0xC2 <=? b0) && (b0 <=? 0xDF) then Some (2%nat, 0x80, 0xBF)
  else if b0 =? 0xE0 then Some (3%nat, 0xA0, 0xBF)
  else if (0xE1 <=? b0) && (b0 <=? 0xEC) then Some (3%nat, 0x80, 0xBF)
  else if b0 =? 0xED then Some (3%nat, 0x80, 0x9F)
  else if (0xEE <=? b0) && (b0 <=? 0xEF) then Some (3%nat, 0x80, 0xBF)
  else if b0 =? 0xF0 then Some (4%nat, 0x90, 0xBF)
  else if (0xF1 <=? b0) && (b0 <=? 0xF3) then Some (4%nat, 0x80, 0xBF)
  else if b0 =? 0xF4 then Some (4%nat, 0x80, 0x8F)
  else None.

(** The runes of a string as produced by [for _, r := range s]
    (utf8.DecodeRuneInString step by step): an ASCII byte is its own rune;
    an invalid or truncated sequence yields RuneError (U+FFFD) and advances
    by one byte. *)
Fixpoint decode (bs : list Z) : list Z :=
  match bs with
  | [] => []
  | b0 :: r =>
      if b0 <? 0x80 then b0 :: decode r
      else match first b0 with
      | None => 0xFFFD :: decode r
      | Some (sz, lo, hi) =>
          if (length r <? pred sz)%nat then 0xFFFD :: decode r
          else match r with
          | [] => 0xFFFD :: decode r
          | b1 :: r1 =>
              if negb ((lo <=? b1) && (b1 <=? hi)) then 0xFFFD :: decode r
              else if (sz <=? 2)%nat then
                (Z.land b0 0x1F * 64 + Z.land b1 0x3F) :: decode r1
              else match r1 with
              | [] => 0xFFFD :: decode r
              | b2 :: r2 =>
                  if negb (cont b2) then 0xFFFD :: decode r
                  else if (sz <=? 3)%nat then
                    (Z.land b0 0x0F * 4096 + Z.land b1 0x3F * 64
                     + Z.land b2 0x3F) :: decode r2
                  else match r2 with
                  | [] => 0xFFFD :: decode r
                  | b3 :: r3 =>
                      if negb (cont b3) then 0xFFFD :: decode r
                      else (Z.land b0 0x07 * 262144 + Z.land b1 0x3F * 4096
                            + Z.land b2 0x3F * 64 + Z.land b3 0x3F)
                           :: decode r3
                  end
              end
          end
      end
  end.

(** unicode.ToUpper on a rune.  ASCII 'a'..'z' map to 'A'..'Z'; of the
    non-ASCII runes only U+0131 (dotless i) and U+017F (long s) have an
    upper-case mapping in the ASCII range (to 'I' and 'S').  The other
    non-ASCII runes are left unchanged here: Unicode maps them to non-ASCII
    runes, which is all that matters when the result is compared with the
    ASCII priority names. *)
Definition unicode_ToUpper (r : Z) : Z :=
  if (97 <=? r) && (r <=? 122) then r - 32
  else if r =? 0x131 then 0x49
  else if r =? 0x17F then 0x53
  else r.

(** strings.ToUpper(s), as its sequence of runes (ToPriority compares the
    result with ASCII literals, so comparing runes is the same). *)
Definition ToUpper (s : string) : list Z := map unicode_ToUpper (decode (bytes s)).

(** Priority.String; [None] is the panic of an undeclared value. *)
Definition String_of (p : Priority) : option string :=
  if p =? EXIT then Some "EXIT"%string
  else if p =? PANIC then Some "PANIC"%string
  else if p =? WARNING then Some "WARNING"%string
  else if p =? INFO then Some "INFO"%string
  else if p =? DEBUG then Some "DEBUG"%string
  else None.

(** ToPriority: the Priority and the error (its message, if any). *)
Definition ToPriority (str : string) : Priority * option string :=
  let u := ToUpper str in
  if decide (u = bytes "EXIT"%string) then (EXIT, None)
  else if decide (u = bytes "PANIC"%string) then (PANIC, None)
  else if decide (u = bytes "WARNING"%string) then (WARNING, None)
  else if decide (u = bytes "INFO"%string) then (INFO, None)
  else if decide (u = bytes "DEBUG"%string) then (DEBUG, None)
  else (DEBUG, Some (String.append "Invalid priority string "%string str)).

End Prio.

(* ------------------------------------------------------------------ *)
(** ** Reading the configuration (config.go 96-206) *)

Module ConfigFile.

Local Open Scope string_scope.

(** jsonConfig: absent pointers are [None]. *)
Record jsonConfig := mkJsonConfig {
  jRootDir : string;
  jNumFiles : option Z;
  jFileNumBytes : option Z;
  jPriority : string;
  jSuppressedFiles : string
}.

Definition DefaultLogRootDir := "/usr/local/var/log".
Definition DefaultNumFiles : Z := 3.
Definition DefaultLogFileNumBytes : Z := 1000000.
Definition DefaultPriority : Priority := INFO.
Definition DefaultSuppressedFiles := EmptyString.

(** DefaultConfig; [fileName] is the package variable set from
    os.Executable(). *)
Definition DefaultConfig (fileName : string) : Config :=
  {| RootDir := DefaultLogRootDir; FileName := fileName;
     NumFiles := DefaultNumFiles; FileNumBytes := DefaultLogFileNumBytes;
     cfgPriority := DefaultPriority;
     SuppressedFiles := DefaultSuppressedFiles |}.

Definition nl := String (ascii_of_nat 10) EmptyString.

(** jsonToConfig, with the lines it prints to os.Stderr. *)
Definition jsonToConfig (fileName : string) (jc : jsonConfig)
  : Config * list string :=
  let rootDir := if String.eqb (jRootDir jc) EmptyString then DefaultLogRootDir
                 else jRootDir jc in
  let numFiles := match jNumFiles jc with
                  | None => DefaultNumFiles | Some n => n end in
  let numBytes := match jFileNumBytes jc with
                  | None => DefaultLogFileNumBytes | Some n => n end in
  let '(prio, diag) :=
    if String.eqb (jPriority jc) EmptyString then (DefaultPriority, [])
    else match Prio.ToPriority (jPriority jc) with
         | (_, Some _) =>
             (DefaultPriority,
              [String.append "Invalid priority string: "
                 (String.append (jPriority jc) nl)])
         | (p, None) => (p, [])
         end in
  ({| RootDir := rootDir; FileName := fileName; NumFiles := numFiles;
      FileNumBytes := numBytes; cfgPriority := prio;
      SuppressedFiles := jSuppressedFiles jc |}, diag).

(** Result of json.Unmarshal(data, &jc) with jc of type *jsonConfig:
    an error, the document null (which sets jc to nil), or an object. *)
Inductive unmarshal_result :=
  | UErr (err : string)
  | UNull
  | UObj (jc : jsonConfig).

(** Result of readConfigFile: the Config and the os.Stderr output, or the
    nil dereference in jsonToConfig(nil). *)
Inductive cfg_read :=
  | CfgRead (c : Config) (stderr : list string)
  | CfgNilDeref (stderr : list string).

(** readConfigFile.  [cfgFile] is the result of getConfigFile() (the empty string when
    no file is found), [readFile] the result of ioutil.ReadFile (error
    message or data) and [unmarshal] the JSON decoder. *)
Definition readConfigFile (fileName : string) (warnIfNoCfg : bool)
  (cfgFile : string) (readFile : string + string)
  (unmarshal : string -> unmarshal_result) : cfg_read :=
  if String.eqb cfgFile EmptyString then
    CfgRead (DefaultConfig fileName)
      [String.append "No logging config file found. Using defaults" nl]
  else match readFile with
  | inl err =>
      CfgRead (DefaultConfig fileName)
        (if warnIfNoCfg
         then [String.append "Warning reading "
                 (String.append cfgFile
                    (String.append ": " (String.append err nl)))]
         else [])
  | inr data =>
      match unmarshal data with
      | UErr err =>
          CfgRead (DefaultConfig fileName)
            [String.append "Error parsing "
               (String.append cfgFile
                  (String.append ": " (String.append err nl)))]
      | UNull => CfgNilDeref []
      | UObj jc => let '(c, diag) := jsonToConfig fileName jc in CfgRead c diag
      end
  end.

End ConfigFile.

(* ------------------------------------------------------------------ *)
(** ** GetConfig with the Go heap (interface.go 128-137, log.go 355-356) *)

Module GetCfg.

(** The heap of *Config objects; the logger holds the pointer [l.cfg]. *)
Definition loc := positive.

(** The logger's case [replyTo <- l.cfg.Clone()]: Clone allocates a new
    Config object; [None] is the nil dereference of a dangling l.cfg. *)
Definition reply_clone (h : gmap loc Config) (cfg_ptr : loc)
  : option (gmap loc Config * loc) :=
  match h !! cfg_ptr with
  | Some c => let r := fresh (dom h) in Some (<[r := Clone c]> h, r)
  | None => None
  end.

Inductive getConfig_result :=
  | GCReturned (r : loc)
  | GCPanic (msg : string)
  | GCBlocked.   (* GetConfig never returns *)

Definition timeoutMsg : string := "Timeout waiting for log configuration"%string.

(** The select of GetConfig: the reply arrives after [arrival] seconds
    ([None]: never); time.After fires after 10 seconds.  When both are
    ready Go picks either case. *)
Inductive select_reply : option nat -> loc -> getConfig_result -> Prop :=
  | sel_reply t r : (t <= 10)%nat -> select_reply (Some t) r (GCReturned r)
  | sel_timeout arrival r :
      match arrival with None => True | Some t => (10 <= t)%nat end ->
      select_reply arrival r (GCPanic timeoutMsg).

(** GetConfig() against the logger goroutine in state [o], whose config
    pointer is [cfg_ptr].  [getConfigChan <- reply] is a send on an
    unbuffered channel that only logger.run receives from, with no
    timeout: while run loops ([Running]) it receives the request, replies
    with a clone and the caller waits in the select; once run has returned
    (or the process is exiting) the send never completes. *)
Definition GetConfig (o : run_outcome) (h : gmap loc Config) (cfg_ptr : loc)
  (arrival : option nat) (h' : gmap loc Config) (res : getConfig_result)
  : Prop :=
  match o with
  | Running _ =>
      exists r, reply_clone h cfg_ptr = Some (h', r) /\ select_reply arrival r res
  | Returned _ | OsExit _ _ => h' = h /\ res = GCBlocked
  end.

End GetCfg.

(* ------------------------------------------------------------------ *)
(** ** logIF: the send on logChan and its deferred recover (log.go 228-238) *)

Module LogIF.

(** A deferred call: [DeferRecover] is [defer recover()], where the
    deferred function is recover itself; [DeferFuncRecover] is
    [defer func() { recover() }()], where recover is called by the
    deferred function.  By the Go specification recover stops a panic only
    in the second form ("recover was not called directly by a deferred
    function" makes it return nil). *)
Inductive deferred := DeferRecover | DeferFuncRecover.

Inductive go_outcome :=
  | GoReturn (l : logger)
  | GoBlocked
  | GoPanicking (msg : string).

Definition run_deferred (d : deferred) (l : logger) (o : go_outcome)
  : go_outcome :=
  match o, d with
  | GoPanicking _, DeferFuncRecover => GoReturn l
  | _, _ => o
  end.

(** [logChan <- lm]: a panic on a closed channel, a block on a full one. *)
Definition chan_send (l : logger) (lm : logMsgT) : go_outcome :=
  if logChanClosed l then GoPanicking "send on closed channel"%string
  else if (length (logChan l) <? logChanCap)%nat
  then GoReturn (set_logChan l (logChan l ++ [lm]))
  else GoBlocked.

Definition logIF_with (d : deferred) (l : logger) (lm : logMsgT) : go_outcome :=
  run_deferred d l (chan_send l lm).

(** logIF as written: [defer recover()] then [logChan <- lm]. *)
Definition logIF (l : logger) (lm : logMsgT) : go_outcome :=
  logIF_with DeferRecover l lm.

End LogIF.

(* ------------------------------------------------------------------ *)
(** ** Summaries used in the statements *)

(** The suppression set as the documentation reads SuppressedFiles: the
    comma separated file-name stems. *)
Definition suppression_members (s : string) : list string :=
  GoStrings.Split ","%char s.

(** The Write requests produced by running logMsg on the entries [q], in
    order, under the configuration [c]. *)
Fixpoint flushed (c : Config) (q : list logMsgT) : list wreq :=
  match q with
  | [] => []
  | lm :: rest =>
      match logMsg c (lm_file lm) (lm_line lm) (lm_priority lm)
              (lm_format lm) (lm_a lm) EmptyString with
      | Some r => WWrite r :: flushed c rest
      | None => flushed c rest
      end
  end.

Definition outcome_logger (o : run_outcome) : logger :=
  match o with Running l | Returned l | OsExit _ l => l end.

(** The bounds of the spec's Config: maxFiles >= 1, maxFileBytes >= 1. *)
Definition cfg_ok (c : Config) : Prop := 1 <= NumFiles c /\ 1 <= FileNumBytes c.

Definition opt_ge1 (o : option Z) : Prop :=
  match o with None => True | Some n => 1 <= n end.

(** The values an event brings in from outside satisfy the bounds. *)
Definition event_ok (ev : event) : Prop :=
  match ev with
  | EvRefresh c => cfg_ok c
  | EvSetConfig cm => 1 <= cm_maxFiles cm /\ 1 <= cm_maxBytes cm
  | _ => True
  end.

(** An ASCII capitalization of an upper-case ASCII name: each byte is the
    name's letter or its lower-case form. *)
Definition ascii_capitalization (s name : string) : Prop :=
  Forall2 (fun b n => b = n \/ b = n + 32) (Prio.bytes s) (Prio.bytes name).

Definition declared (p : Priority) : Prop := 0 <= p <= 4.

(* ------------------------------------------------------------------ *)
(** ** Concrete inputs *)

Module Samples.

Local Open Scope string_scope.

Definition cfg_pkg : Config :=
  {| RootDir := "logs"; FileName := "app"; NumFiles := 3;
     FileNumBytes := 1000000; cfgPriority := DEBUG;
     SuppressedFiles := "pkga,pkgb" |}.

Definition cfg_pkg_other_suppress : Config :=
  {| RootDir := "logs"; FileName := "app"; NumFiles := 3;
     FileNumBytes := 1000000; cfgPriority := DEBUG;
     SuppressedFiles := "pkgc" |}.

Definition lm_debug_main : logMsgT := mkLogMsg "/src/main.go" 12 DEBUG "debug message" [].

Definition logger_one_debug : logger := mkLogger cfg_pkg [lm_debug_main] false [].

Definition cm_info : configMsg := mkConfigMsg 3 1000000 INFO.

Definition cm_zero : configMsg := mkConfigMsg 0 0 INFO.

Definition jc_zero : ConfigFile.jsonConfig :=
  ConfigFile.mkJsonConfig "logs" (Some 0) (Some 0) "INFO" EmptyString.

Definition jc_rootdir_only : ConfigFile.jsonConfig :=
  ConfigFile.mkJsonConfig "logs" None None EmptyString EmptyString.

(** "ınfo": U+0131 (bytes C4 B1) followed by "nfo". *)
Definition dotless_info : string :=
  String (ascii_of_nat 196) (String (ascii_of_nat 177) "nfo").

End Samples.

(* ------------------------------------------------------------------ *)
(** ** Package files: the FileSet goroutine
       (src/log/examples/basic/main.go 40-245) *)

Module Files.

(** A Go [int] (64 bits): arithmetic wraps around. *)
Definition wrap_int (z : Z) : Z := (z + 2 ^ 63) mod 2 ^ 64 - 2 ^ 63.

(** sort.Strings orders by [<] on strings: byte-wise lexicographic order,
    a proper prefix first; String.compare compares the same way. *)
Definition name_le (a b : string) : Prop := String.leb a b = true.

#[global] Instance name_le_dec : RelDecision name_le :=
  fun a b => bool_dec (String.leb a b) true.

(** What the FileSet sees of the operating system, fixed for one run:
    whether filepath.Glob rejects the pattern logDir/logName*.log
    (ErrBadPattern), whether os.MkdirAll(logDir) fails, the name
    logDir/logName_<time.Now() in RFC3339Nano>.log that newFile creates at
    clock value [t], and which os.Create and os.Remove calls fail. *)
Record env := mkEnv {
  badPattern : bool;
  mkdirFails : bool;
  nameAt : Z -> string;
  createFails : string -> bool;
  removeFails : string -> bool
}.

(** [dir] holds the files matched by the glob pattern, [msgChan] the
    pending write requests (by len(buf)), [now] the clock value of the
    next newFile. *)
Record fileset := mkFileSet {
  currentFile : option string;
  currentFileSize : Z;
  maxFileSize : Z;
  maxNumFiles : Z;
  dir : list string;
  msgChan : list Z;
  now : Z
}.

Definition set_size (fs : fileset) (n : Z) : fileset :=
  {| currentFile := currentFile fs; currentFileSize := n;
     maxFileSize := maxFileSize fs; maxNumFiles := maxNumFiles fs;
     dir := dir fs; msgChan := msgChan fs; now := now fs |}.

Definition set_limits (fs : fileset) (numFiles fileSize : Z) : fileset :=
  {| currentFile := currentFile fs; currentFileSize := currentFileSize fs;
     maxFileSize := fileSize; maxNumFiles := numFiles;
     dir := dir fs; msgChan := msgChan fs; now := now fs |}.

Definition set_msgChan (fs : fileset) (q : list Z) : fileset :=
  {| currentFile := currentFile fs; currentFileSize := currentFileSize fs;
     maxFileSize := maxFileSize fs; maxNumFiles := maxNumFiles fs;
     dir := dir fs; msgChan := q; now := now fs |}.

Definition clear_msgChan (fs : fileset) : fileset := set_msgChan fs [].

Definition set_dir (fs : fileset) (d : list string) : fileset :=
  {| currentFile := currentFile fs; currentFileSize := currentFileSize fs;
     maxFileSize := maxFileSize fs; maxNumFiles := maxNumFiles fs;
     dir := d; msgChan := msgChan fs; now := now fs |}.

Section FileSet.

Variable E : env.

(** ListLogFiles: the glob results sorted by sort.Strings; [None] is the
    panic on ErrBadPattern. *)
Definition ListLogFiles (d : list string) : option (list string) :=
  if badPattern E then None else Some (merge_sort name_le d).

(** rmFile: os.Remove; an error (a missing file or a failing removal)
    panics. *)
Definition rmFile (fname : string) (d : list string) : option (list string) :=
  if removeFails E fname then None
  else if existsb (String.eqb fname) d
  then Some (List.filter (fun x => negb (String.eqb x fname)) d)
  else None.

(** The loop [for i := 0; i < delete; i++ { fs.rmFile(logFiles[i]) }]
    run for [n] iterations; an index past the end panics. *)
Fixpoint rm_oldest (n : nat) (logFiles d : list string)
  : option (list string) :=
  match n with
  | O => Some d
  | S n' =>
      match logFiles with
      | [] => None
      | f :: rest =>
          match rmFile f d with
          | Some d' => rm_oldest n' rest d'
          | None => None
          end
      end
  end.

(** newFile: os.Create of the file named after the clock (an existing file
    is truncated), which becomes currentFile; an error panics.  logConfig
    writes the header, which currentFileSize does not count. *)
Definition newFile (fs : fileset) (d : list string) : option fileset :=
  let fname := nameAt E (now fs) in
  if createFails E fname then None
  else Some {| currentFile := Some fname;
               currentFileSize := currentFileSize fs;
               maxFileSize := maxFileSize fs; maxNumFiles := maxNumFiles fs;
               dir := if existsb (String.eqb fname) d then d else d ++ [fname];
               msgChan := msgChan fs; now := now fs + 1 |}.

(** rotate: close the current file, delete the first
    len(logFiles) - maxNumFiles + 1 files (an int expression), open a new
    file, reset the byte count; [None] is a panic. *)
Definition rotate (fs : fileset) : option fileset :=
  match ListLogFiles (dir fs) with
  | None => None
  | Some logFiles =>
      let delete := wrap_int (Z.of_nat (length logFiles) - maxNumFiles fs + 1) in
      match rm_oldest (Z.to_nat delete) logFiles (dir fs) with
      | None => None
      | Some d =>
          match newFile fs d with
          | Some fs1 => Some (set_size fs1 0)
          | None => None
          end
      end
  end.

(** FileSet.log: [wres] is the result of currentFile.Write(buf); the
    byte count grows by len(buf) on success and the set rotates when it
    reaches maxFileSize.  Write on a nil *os.File returns (0, ErrInvalid). *)
Definition log (fs : fileset) (buflen : Z) (wres : Z * option string)
  : option (fileset * (Z * option string)) :=
  match currentFile fs with
  | None => Some (fs, (0, Some "invalid argument"%string))
  | Some _ =>
      match snd wres with
      | Some _ => Some (fs, wres)
      | None =>
          let fs1 := set_size fs (currentFileSize fs + buflen) in
          if maxFileSize fs1 <=? currentFileSize fs1 then
            match rotate fs1 with
            | Some fs2 => Some (fs2, wres)
            | None => None
            end
          else Some (fs1, wres)
      end
  end.

(** FileSet.setConfig: rotate only when the current file is already
    larger than the new limit. *)
Definition setConfig (fs : fileset) (numFiles fileSize : Z) : option fileset :=
  let fs1 := set_limits fs numFiles fileSize in
  if maxFileSize fs1 <? currentFileSize fs1 then rotate fs1 else Some fs1.

(** The [for msg := range fs.msgChan { fs.log(msg.msg) }] loop of close,
    each write to the file succeeding; the replies are not sent. *)
Fixpoint drain (q : list Z) (fs : fileset) : option fileset :=
  match q with
  | [] => Some fs
  | n :: rest =>
      match log fs n (n, None) with
      | Some (fs', _) => drain rest fs'
      | None => None
      end
  end.

(** FileSet.close: close(msgChan) and drain it, then
    currentFile.Name() (a panic on a nil file), remove the current file
    when nothing was written to it, then close it. *)
Definition close (fs : fileset) : option fileset :=
  match drain (msgChan fs) (clear_msgChan fs) with
  | None => None
  | Some fs1 =>
      match currentFile fs1 with
      | None => None
      | Some fname =>
          if currentFileSize fs1 <? 1 then
            match rmFile fname (dir fs1) with
            | Some d => Some (set_dir fs1 d)
            | None => None
            end
          else Some fs1
      end
  end.

(** New (os.MkdirAll, a panic on error) followed by the first action of
    run: a rotation. *)
Definition New (d : list string) (t : Z) (maxFileSize maxNumFiles : Z)
  : option fileset :=
  if mkdirFails E then None
  else rotate {| currentFile := None; currentFileSize := 0;
                 maxFileSize := maxFileSize; maxNumFiles := maxNumFiles;
                 dir := d; msgChan := []; now := t |}.

(** The cases of the select of FileSet.run other than close, together with
    the callers' sends: Write(buf) sends a request on msgChan (capacity
    1024), run receives the oldest request and answers with log, and
    SetConfig is handled by setConfig.  [None]: the case is not ready (an
    empty or full msgChan) or the goroutine panicked. *)
Inductive fs_event :=
  | FSend (buflen : Z)
  | FRecv (wres : Z * option string)
  | FSetConfig (numFiles fileSize : Z).

Definition fs_step (fs : fileset) (ev : fs_event) : option fileset :=
  match ev with
  | FSend n =>
      if (length (msgChan fs) <? 1024)%nat
      then Some (set_msgChan fs (msgChan fs ++ [n])) else None
  | FRecv wres =>
      match msgChan fs with
      | [] => None
      | n :: rest =>
          match log (set_msgChan fs rest) n wres with
          | Some (fs', _) => Some fs'
          | None => None
          end
      end
  | FSetConfig nf sz => setConfig fs nf sz
  end.

Fixpoint fs_run (fs : fileset) (evs : list fs_event) : option fileset :=
  match evs with
  | [] => Some fs
  | ev :: rest =>
      match fs_step fs ev with
      | Some fs' => fs_run fs' rest
      | None => None
      end
  end.

End FileSet.

End Files.

(* ------------------------------------------------------------------ *)
(** ** Concrete file sets *)

Module FileSamples.

Local Open Scope string_scope.

(** File names "1.log" .. "9.log" for clock values 1 .. 9; no failing
    system call. *)
Definition env_ok : Files.env :=
  Files.mkEnv false false
    (fun t => String (ascii_of_nat (48 + Z.to_nat t)) ".log")
    (fun _ => false) (fun _ => false).

Definition fs_three : Files.fileset :=
  Files.mkFileSet (Some "3.log") 7 10 2 ["1.log"; "3.log"; "2.log"] [] 4.

End FileSamples.

(* ------------------------------------------------------------------ *)
(** ** Config.ToJSON and a sequence of log calls *)

(** The jsonConfig value that Config.ToJSON marshals; [None] is the panic
    of Priority.String on an undeclared priority.  SuppressedFiles is not
    set, so the omitempty field is absent from the document. *)
Definition toJsonConfig (c : Config) : option ConfigFile.jsonConfig :=
  match Prio.String_of (cfgPriority c) with
  | None => None
  | Some ps =>
      Some (ConfigFile.mkJsonConfig (RootDir c) (Some (NumFiles c))
              (Some (FileNumBytes c)) ps EmptyString)
  end.

(** Successive log calls from one goroutine; stops at the first call that
    does not return. *)
Fixpoint logIF_seq (l : logger) (lms : list logMsgT) : LogIF.go_outcome :=
  match lms with
  | [] => LogIF.GoReturn l
  | lm :: rest =>
      match LogIF.logIF l lm with
      | LogIF.GoReturn l' => logIF_seq l' rest
      | o => o
      end
  end.

(** The Write request of a logMsg result. *)
Definition written (r : option record) : list wreq :=
  match r with Some r' => [WWrite r'] | None => [] end.

(* ================================================================== *)
(** * Theorems *)

(** logMsg writes exactly when the priority passes and isSuppressed is
    false. *)
Lemma logMsg_some_iff c file line p fmt a st r :
  logMsg c file line p fmt a st = Some r <->
  p <= cfgPriority c /\
  isSuppressed c (GoStrings.path_Split_file file) p = false /\
  r = RMsg p (GoStrings.path_Split_file file) line fmt a st.
Proof.
  unfold logMsg.
  destruct (p <=? cfgPriority c) eqn:Hp;
    destruct (isSuppressed _ _ _) eqn:Hs; simpl.
  - split; [discriminate | intros (_ & ? & _); discriminate].
  - apply Z.leb_le in Hp. split.
    + intros H; inversion H; subst. auto.
    + intros (_ & _ & ->). reflexivity.
  - split; [discriminate | intros (_ & ? & _); discriminate].
  - apply Z.leb_gt in Hp. split; [discriminate | intros (? & _); lia].
Qed.

(** C1 (code_bug): with SuppressedFiles = "pkga,pkgb" and threshold
    DEBUG, a DEBUG entry from "/src/pkg.go" (stem "pkg", not one of the
    listed stems) is dropped: isSuppressed tests strings.Contains on the
    whole list, a substring test, not membership of the stem. *)
Theorem logMsg_drops_unlisted_stem :
  logMsg Samples.cfg_pkg "/src/pkg.go"%string 7 DEBUG
    "debug message"%string [] EmptyString = None /\
  DEBUG <= cfgPriority Samples.cfg_pkg /\
  ~ In "pkg"%string (suppression_members (SuppressedFiles Samples.cfg_pkg)).
Proof.
  split; [vm_compute; reflexivity|].
  split; [vm_compute; discriminate|].
  vm_compute. intros [H | [H | H]]; [discriminate | discriminate | exact H].
Qed.

(** The loop of flushLogMsgs receives every buffered entry, oldest first,
    and runs logMsg on it under the current configuration. *)
Lemma flush_n_spec (q : list logMsgT) : forall l,
  logChan l = q ->
  flush_n (length q) l =
  mkLogger (cfg l) [] (logChanClosed l) (wtr l ++ flushed (cfg l) q).
Proof.
  induction q as [|lm rest IH]; intros l Hq.
  - destruct l as [c q' b w]; simpl in *; subst. rewrite app_nil_r. reflexivity.
  - simpl. rewrite Hq. rewrite IH.
    + unfold logMsg_l, write, send_wtr, set_logChan; simpl.
      destruct (logMsg _ _ _ _ _ _ _); simpl;
        [rewrite <- app_assoc; reflexivity | reflexivity].
    + unfold logMsg_l, write, send_wtr, set_logChan; simpl.
      destruct (logMsg _ _ _ _ _ _ _); reflexivity.
Qed.

Lemma flushLogMsgs_spec (l : logger) :
  flushLogMsgs l =
  mkLogger (cfg l) [] (logChanClosed l) (wtr l ++ flushed (cfg l) (logChan l)).
Proof. unfold flushLogMsgs. apply flush_n_spec. reflexivity. Qed.

Lemma close_spec (l : logger) :
  close l = mkLogger (cfg l) [] true
              (wtr l ++ flushed (cfg l) (logChan l) ++ [WClose]).
Proof.
  unfold close. rewrite flushLogMsgs_spec. simpl.
  unfold send_wtr. simpl. rewrite app_assoc. reflexivity.
Qed.

(** C2 (counterexample): a queued DEBUG entry under threshold DEBUG,
    then setConfig(3, 1000000, INFO): the entry is not written first under
    the old threshold; the requests sent are only the FileSet SetConfig
    and the configuration record. *)
Lemma setConfig_not_flushed_under_old_rules :
  match run_step Samples.logger_one_debug (EvSetConfig Samples.cm_info) with
  | Some (Running l') =>
      flushed (cfg Samples.logger_one_debug)
        (logChan Samples.logger_one_debug) <> [] /\
      ~ (exists rest, wtr l' =
           wtr Samples.logger_one_debug ++
           flushed (cfg Samples.logger_one_debug)
             (logChan Samples.logger_one_debug) ++ rest)
  | _ => False
  end.
Proof.
  vm_compute. split; [discriminate|]. intros [rest H]. discriminate H.
Qed.

(** C2 (amended): setConfig first replaces NumFiles, FileNumBytes and
    Priority, then flushes the queued entries in order under the new
    configuration, then sends SetConfig to the FileSet and logs the new
    configuration. *)
Theorem setConfig_flushes_under_new_config (l : logger) (cm : configMsg) :
  let c := cfg l in
  let c' := {| RootDir := RootDir c; FileName := FileName c;
               NumFiles := cm_maxFiles cm; FileNumBytes := cm_maxBytes cm;
               cfgPriority := cm_priority cm;
               SuppressedFiles := SuppressedFiles c |} in
  run_step l (EvSetConfig cm) =
  Some (Running (mkLogger c' [] (logChanClosed l)
                  (wtr l ++ flushed c' (logChan l) ++
                   [WSetConfig (cm_maxFiles cm) (cm_maxBytes cm);
                    WWrite (RConfig c')]))).
Proof.
  intros c c'. simpl. rewrite flushLogMsgs_spec. simpl.
  unfold logConfig, write, send_wtr; simpl.
  rewrite <- !app_assoc. reflexivity.
Qed.

(** C3 (code_bug): Config.Equal compares five fields and skips
    SuppressedFiles: two configurations that differ only there are
    reported equal. *)
Theorem Equal_skips_SuppressedFiles :
  Equal Samples.cfg_pkg Samples.cfg_pkg_other_suppress = true /\
  Samples.cfg_pkg <> Samples.cfg_pkg_other_suppress.
Proof.
  split; [vm_compute; reflexivity|].
  intros H. apply (f_equal SuppressedFiles) in H. vm_compute in H. discriminate H.
Qed.

(** C4 (code_bug): a periodic re-read returning a Config that differs
    from the current one only in SuppressedFiles is not adopted: the
    logger state is left unchanged. *)
Theorem refresh_ignores_SuppressedFiles_change :
  let l := mkLogger Samples.cfg_pkg [] false [] in
  run_step l (EvRefresh Samples.cfg_pkg_other_suppress) = Some (Running l) /\
  Samples.cfg_pkg_other_suppress <> cfg l.
Proof.
  simpl. split; [vm_compute; reflexivity|].
  intros H. apply (f_equal SuppressedFiles) in H. vm_compute in H. discriminate H.
Qed.

(** C9: a close, exit or panic request flushes every buffered entry in
    enqueue order under the configuration in force when draining starts,
    and the FileSet Close request comes after the flushed writes (and, for
    exit and panic, after the EXIT or PANIC record). *)
Theorem drain_then_close (l : logger) :
  run_step l EvClose =
    Some (Returned (mkLogger (cfg l) [] true
           (wtr l ++ flushed (cfg l) (logChan l) ++ [WClose]))) /\
  (forall m, run_step l (EvExit m) =
    Some (OsExit (em_exitCode m) (mkLogger (cfg l) [] true
           (wtr l ++ [WWrite (RExit (em_exitCode m)
                        (GoStrings.path_Split_file (em_file m)) (em_line m)
                        (em_msg m))] ++
            flushed (cfg l) (logChan l) ++ [WClose])))) /\
  (forall m, run_step l (EvPanic m) =
    Some (OsExit 1 (mkLogger (cfg l) [] true
           (wtr l ++
            match logMsg (cfg l) (pm_file m) (pm_line m) PANIC (pm_msg m) []
                    (pm_stacktrace m) with
            | Some r => [WWrite r]
            | None => []
            end ++
            flushed (cfg l) (logChan l) ++ [WClose])))).
Proof.
  split; [|split].
  - simpl. rewrite close_spec. reflexivity.
  - intros m. simpl. rewrite close_spec. simpl.
    unfold send_wtr. simpl. rewrite <- app_assoc. reflexivity.
  - intros m. simpl. rewrite close_spec.
    unfold logMsg_l, write, send_wtr.
    destruct (logMsg _ _ _ _ _ _ _); simpl;
      [rewrite <- app_assoc; reflexivity | destruct l; reflexivity].
Qed.

(** The configuration fields produced by jsonToConfig. *)
Lemma jsonToConfig_fields (fn : string) (jc : ConfigFile.jsonConfig) :
  let c := fst (ConfigFile.jsonToConfig fn jc) in
  RootDir c = (if String.eqb (ConfigFile.jRootDir jc) EmptyString
               then ConfigFile.DefaultLogRootDir else ConfigFile.jRootDir jc) /\
  FileName c = fn /\
  NumFiles c = match ConfigFile.jNumFiles jc with
               | None => ConfigFile.DefaultNumFiles | Some n => n end /\
  FileNumBytes c = match ConfigFile.jFileNumBytes jc with
                   | None => ConfigFile.DefaultLogFileNumBytes | Some n => n end /\
  SuppressedFiles c = ConfigFile.jSuppressedFiles jc.
Proof.
  unfold ConfigFile.jsonToConfig.
  destruct (String.eqb (ConfigFile.jPriority jc) EmptyString);
    [|destruct (Prio.ToPriority _) as [p [e|]]]; simpl; repeat split.
Qed.

Lemma run_step_cfg_cases (l : logger) (ev : event) (o : run_outcome) :
  run_step l ev = Some o ->
  match ev with
  | EvRefresh c => cfg (outcome_logger o) = cfg l \/ cfg (outcome_logger o) = c
  | EvSetConfig cm =>
      NumFiles (cfg (outcome_logger o)) = cm_maxFiles cm /\
      FileNumBytes (cfg (outcome_logger o)) = cm_maxBytes cm
  | EvSuppress _ =>
      NumFiles (cfg (outcome_logger o)) = NumFiles (cfg l) /\
      FileNumBytes (cfg (outcome_logger o)) = FileNumBytes (cfg l)
  | _ => cfg (outcome_logger o) = cfg l
  end.
Proof.
  intros H. destruct ev; simpl in H.
  - injection H as <-. cbn [outcome_logger]. rewrite close_spec. reflexivity.
  - injection H as <-. cbn [outcome_logger]. rewrite close_spec. reflexivity.
  - destruct (logChan l) as [|lm rest]; [discriminate|].
    injection H as <-. simpl. unfold logMsg_l, write, send_wtr.
    destruct (logMsg _ _ _ _ _ _ _); reflexivity.
  - injection H as <-. cbn [outcome_logger]. rewrite close_spec. simpl.
    unfold logMsg_l, write, send_wtr.
    destruct (logMsg _ _ _ _ _ _ _); reflexivity.
  - destruct (negb (Equal (cfg l) newCfg)); injection H as <-; simpl; auto.
  - injection H as <-. simpl. rewrite flushLogMsgs_spec. simpl. auto.
  - injection H as <-. reflexivity.
  - injection H as <-. simpl. rewrite flushLogMsgs_spec. simpl. auto.
Qed.

(** C5 (counterexample): a document with "NumFiles": 0 and
    "FileNumBytes": 0 gives a Config with both fields 0, and so does
    setConfig(0, 0, INFO). *)
Lemma config_bounds_not_enforced :
  ~ cfg_ok (fst (ConfigFile.jsonToConfig "app"%string Samples.jc_zero)) /\
  match run_step (mkLogger Samples.cfg_pkg [] false [])
          (EvSetConfig Samples.cm_zero) with
  | Some o => ~ cfg_ok (cfg (outcome_logger o))
  | None => False
  end.
Proof.
  split.
  - vm_compute. intros [H _]. apply H. reflexivity.
  - vm_compute. intros [H _]. apply H. reflexivity.
Qed.

(** C5 (amended): the bounds are not checked anywhere.  The defaults
    satisfy them; jsonToConfig yields a Config within the bounds exactly
    when the present NumFiles and FileNumBytes are; setConfig stores its
    arguments as given; and every step of the logger keeps the bounds
    when the values it brings in satisfy them. *)
Theorem config_bounds_follow_inputs :
  (forall fn, cfg_ok (ConfigFile.DefaultConfig fn)) /\
  (forall fn jc,
     cfg_ok (fst (ConfigFile.jsonToConfig fn jc)) <->
     opt_ge1 (ConfigFile.jNumFiles jc) /\ opt_ge1 (ConfigFile.jFileNumBytes jc)) /\
  (forall l cm o, run_step l (EvSetConfig cm) = Some o ->
     NumFiles (cfg (outcome_logger o)) = cm_maxFiles cm /\
     FileNumBytes (cfg (outcome_logger o)) = cm_maxBytes cm) /\
  (forall l ev o, run_step l ev = Some o -> cfg_ok (cfg l) -> event_ok ev ->
     cfg_ok (cfg (outcome_logger o))).
Proof.
  split; [|split; [|split]].
  - intros fn. unfold cfg_ok; simpl. unfold ConfigFile.DefaultNumFiles,
      ConfigFile.DefaultLogFileNumBytes. lia.
  - intros fn jc. destruct (jsonToConfig_fields fn jc) as (_ & _ & Hn & Hb & _).
    unfold cfg_ok. rewrite Hn, Hb.
    destruct (ConfigFile.jNumFiles jc), (ConfigFile.jFileNumBytes jc);
      simpl; unfold ConfigFile.DefaultNumFiles,
      ConfigFile.DefaultLogFileNumBytes; intuition lia.
  - intros l cm o H. exact (run_step_cfg_cases l (EvSetConfig cm) o H).
  - intros l ev o H Hok Hev. apply run_step_cfg_cases in H.
    destruct ev; simpl in Hev; try (rewrite H; exact Hok).
    + destruct H as [-> | ->]; assumption.
    + unfold cfg_ok. destruct H as [-> ->]. exact Hev.
    + unfold cfg_ok in *. destruct H as [-> ->]. exact Hok.
Qed.

Lemma Clone_eq (c : Config) : Clone c = c.
Proof. destruct c; reflexivity. Qed.

(** C6 (counterexample): after a close request logger.run has returned
    and nothing receives from getConfigChan: GetConfig, whose reply never
    comes, neither returns nor panics after 10 seconds, it blocks on the
    send of its request. *)
Lemma GetConfig_blocks_after_close :
  match run_step Samples.logger_one_debug EvClose with
  | Some o =>
      GetCfg.GetConfig o {[1%positive := Samples.cfg_pkg]} 1%positive None
        {[1%positive := Samples.cfg_pkg]} GetCfg.GCBlocked /\
      forall h' res,
        GetCfg.GetConfig o {[1%positive := Samples.cfg_pkg]} 1%positive None
          h' res ->
        res = GetCfg.GCBlocked /\ res <> GetCfg.GCPanic GetCfg.timeoutMsg
  | None => False
  end.
Proof.
  cbn [run_step]. split; [split; reflexivity|].
  intros h' res [_ ->]. split; [reflexivity | discriminate].
Qed.

(** C6 (amended): while logger.run loops, GetConfig returns, within the
    10 second bound, a pointer to a new Config object equal to the
    logger's, and writing through that pointer leaves the logger's object
    unchanged; when no reply comes within the bound the caller panics.
    Once run has returned, GetConfig blocks forever. *)
Theorem GetConfig_deep_copy (o : run_outcome) (h : gmap GetCfg.loc Config)
  (cfg_ptr : GetCfg.loc) (c : Config) (arrival : option nat)
  (h' : gmap GetCfg.loc Config) (res : GetCfg.getConfig_result) :
  h !! cfg_ptr = Some c ->
  GetCfg.GetConfig o h cfg_ptr arrival h' res ->
  h' !! cfg_ptr = Some c /\
  (forall r, res = GetCfg.GCReturned r ->
     (exists l, o = Running l) /\
     r <> cfg_ptr /\ h' !! r = Some c /\
     (exists t, arrival = Some t /\ (t <= 10)%nat) /\
     forall c'', <[r := c'']> h' !! cfg_ptr = Some c) /\
  ((exists l, o = Running l) ->
     (arrival = None \/ exists t, arrival = Some t /\ (10 < t)%nat) ->
     res = GetCfg.GCPanic GetCfg.timeoutMsg) /\
  ((forall l, o <> Running l) -> res = GetCfg.GCBlocked).
Proof.
  intros Hc HG. destruct o as [l0 | l0 | code l0].
  2, 3: destruct HG as [-> ->]; split; [exact Hc|];
    split; [intros r Hr; discriminate Hr|];
    split; [intros [l Hl]; discriminate Hl | intros _; reflexivity].
  destruct HG as (r & Hr & Hsel).
  unfold GetCfg.reply_clone in Hr. rewrite Hc in Hr.
  injection Hr as <- <-.
  assert (Hne : fresh (dom h) <> cfg_ptr).
  { intros Heq. pose proof (is_fresh (dom h)) as Hf.
    rewrite not_elem_of_dom in Hf. rewrite Heq, Hc in Hf. discriminate Hf. }
  assert (Hkeep : <[fresh (dom h) := Clone c]> h !! cfg_ptr = Some c).
  { rewrite lookup_insert_ne by exact Hne. exact Hc. }
  split; [exact Hkeep | split; [|split]].
  - intros r0 Hres. inversion Hsel as [t r1 Ht Harr Hr1 Hres1 | arr r1 Harr Harr' Hr1 Hres1];
      subst; [|discriminate].
    injection Hres1 as <-. repeat split.
    + exists l0. reflexivity.
    + exact Hne.
    + rewrite lookup_insert_eq, Clone_eq. reflexivity.
    + exists t. split; [reflexivity | exact Ht].
    + intros c''. rewrite lookup_insert_ne by exact Hne. exact Hkeep.
  - intros _ Hlate. inversion Hsel as [t r1 Ht Harr Hr1 Hres1 | arr r1 Harr Harr' Hr1 Hres1];
      subst; [|reflexivity].
    destruct Hlate as [Hn | (t' & Ht' & Hlt)]; [discriminate|].
    injection Ht' as <-. lia.
  - intros Hn. exfalso. exact (Hn l0 eq_refl).
Qed.

Lemma GetConfig_deep_copy_witness :
  ({[1%positive := Samples.cfg_pkg]} : gmap GetCfg.loc Config) !! 1%positive
    = Some Samples.cfg_pkg /\
  GetCfg.GetConfig (Running Samples.logger_one_debug)
    {[1%positive := Samples.cfg_pkg]} 1%positive (Some 1%nat)
    (<[2%positive := Clone Samples.cfg_pkg]> {[1%positive := Samples.cfg_pkg]})
    (GetCfg.GCReturned 2%positive) /\
  (<[2%positive := Clone Samples.cfg_pkg]> {[1%positive := Samples.cfg_pkg]}
     : gmap GetCfg.loc Config) !! 1%positive = Some Samples.cfg_pkg.
Proof.
  assert (H1 : ({[1%positive := Samples.cfg_pkg]} : gmap GetCfg.loc Config)
                 !! 1%positive = Some Samples.cfg_pkg) by reflexivity.
  assert (H2 : GetCfg.GetConfig (Running Samples.logger_one_debug)
                 {[1%positive := Samples.cfg_pkg]} 1%positive
                 (Some 1%nat)
                 (<[2%positive := Clone Samples.cfg_pkg]>
                    {[1%positive := Samples.cfg_pkg]})
                 (GetCfg.GCReturned 2%positive)).
  { exists 2%positive. split; [reflexivity | constructor; lia]. }
  split; [exact H1 | split; [exact H2 |]].
  exact (proj1 (GetConfig_deep_copy _ _ _ _ _ _ _ H1 H2)).
Defined.

(** C7 (code_bug): once logger.run has returned on a close request,
    logChan is closed and a further log call panics with "send on closed
    channel": the deferred recover() in logIF is recover itself, so it
    does not stop the panic; the form [defer func() { recover() }()]
    would have returned normally. *)
Theorem log_after_close_panics (l : logger) (lm : logMsgT) :
  match run_step l EvClose with
  | Some (Returned l') =>
      logChanClosed l' = true /\
      LogIF.logIF l' lm = LogIF.GoPanicking "send on closed channel"%string /\
      LogIF.logIF_with LogIF.DeferFuncRecover l' lm = LogIF.GoReturn l'
  | _ => False
  end.
Proof.
  cbn [run_step]. rewrite close_spec.
  split; [reflexivity | split; reflexivity].
Qed.

Lemma readConfigFile_obj (fn : string) (w : bool) (f d : string)
  (um : string -> ConfigFile.unmarshal_result) (jc : ConfigFile.jsonConfig) :
  f <> EmptyString -> um d = ConfigFile.UObj jc ->
  ConfigFile.readConfigFile fn w f (inr d) um =
  ConfigFile.CfgRead (fst (ConfigFile.jsonToConfig fn jc))
                     (snd (ConfigFile.jsonToConfig fn jc)).
Proof.
  intros Hf Hum. unfold ConfigFile.readConfigFile.
  apply String.eqb_neq in Hf. rewrite Hf, Hum.
  destruct (ConfigFile.jsonToConfig fn jc); reflexivity.
Qed.

(** The priority chosen by jsonToConfig and its diagnostic. *)
Lemma jsonToConfig_priority (fn : string) (jc : ConfigFile.jsonConfig) :
  let r := ConfigFile.jsonToConfig fn jc in
  (ConfigFile.jPriority jc = EmptyString ->
     cfgPriority (fst r) = INFO /\ snd r = []) /\
  (ConfigFile.jPriority jc <> EmptyString ->
   snd (Prio.ToPriority (ConfigFile.jPriority jc)) = None ->
     cfgPriority (fst r) = fst (Prio.ToPriority (ConfigFile.jPriority jc)) /\
     snd r = []) /\
  (ConfigFile.jPriority jc <> EmptyString ->
   snd (Prio.ToPriority (ConfigFile.jPriority jc)) <> None ->
     cfgPriority (fst r) = INFO /\ length (snd r) = 1%nat).
Proof.
  unfold ConfigFile.jsonToConfig.
  destruct (String.eqb_spec (ConfigFile.jPriority jc) EmptyString) as [He | Hne].
  - simpl. split; [auto | split; intros H; contradiction].
  - destruct (Prio.ToPriority (ConfigFile.jPriority jc)) as [p [e|]]; simpl;
      (split; [intros H; contradiction|]);
      split; intros _ H; try (exfalso; apply H; reflexivity);
      try discriminate; auto.
Qed.

(** C8 (counterexample): an unreadable document on a periodic re-read
    (warnIfNoCfg = false) and a document that only sets RootDir both fall
    back to defaults without any line on os.Stderr. *)
Lemma config_fallback_without_diagnostic :
  ConfigFile.readConfigFile "app"%string false "app.logging.config"%string
    (inl "permission denied"%string)
    (fun _ => ConfigFile.UErr "syntax error"%string) =
    ConfigFile.CfgRead (ConfigFile.DefaultConfig "app"%string) [] /\
  ConfigFile.readConfigFile "app"%string true "app.logging.config"%string
    (inr "data"%string) (fun _ => ConfigFile.UObj Samples.jc_rootdir_only) =
    ConfigFile.CfgRead
      {| RootDir := "logs"; FileName := "app"; NumFiles := 3;
         FileNumBytes := 1000000; cfgPriority := INFO;
         SuppressedFiles := EmptyString |} [].
Proof. split; vm_compute; reflexivity. Qed.

(** C8 (amended): readConfigFile never returns an error.  No document:
    defaults and a diagnostic.  Unreadable document: defaults, with a
    diagnostic only when warnIfNoCfg (the startup read).  Unparsable
    document: defaults and a diagnostic.  Parsed object: each absent field
    (or empty RootDir or Priority string) takes its default silently, an
    unrecognised Priority takes INFO with one diagnostic, NumFiles,
    FileNumBytes and SuppressedFiles are taken as given. *)
Theorem readConfigFile_fallbacks :
  (forall fn w rd um,
     ConfigFile.readConfigFile fn w EmptyString rd um =
     ConfigFile.CfgRead (ConfigFile.DefaultConfig fn)
       [String.append "No logging config file found. Using defaults"
          ConfigFile.nl]) /\
  (forall fn w f e um, f <> EmptyString ->
     exists diag,
       ConfigFile.readConfigFile fn w f (inl e) um =
       ConfigFile.CfgRead (ConfigFile.DefaultConfig fn) diag /\
       (diag <> [] <-> w = true)) /\
  (forall fn w f d um e, f <> EmptyString -> um d = ConfigFile.UErr e ->
     exists msg,
       ConfigFile.readConfigFile fn w f (inr d) um =
       ConfigFile.CfgRead (ConfigFile.DefaultConfig fn) [msg]) /\
  (forall fn w f d um jc, f <> EmptyString -> um d = ConfigFile.UObj jc ->
     exists c diag,
       ConfigFile.readConfigFile fn w f (inr d) um = ConfigFile.CfgRead c diag /\
       RootDir c = (if String.eqb (ConfigFile.jRootDir jc) EmptyString
                    then ConfigFile.DefaultLogRootDir
                    else ConfigFile.jRootDir jc) /\
       NumFiles c = match ConfigFile.jNumFiles jc with
                    | None => 3 | Some n => n end /\
       FileNumBytes c = match ConfigFile.jFileNumBytes jc with
                        | None => 1000000 | Some n => n end /\
       SuppressedFiles c = ConfigFile.jSuppressedFiles jc /\
       (ConfigFile.jPriority jc = EmptyString ->
          cfgPriority c = INFO /\ diag = []) /\
       (ConfigFile.jPriority jc <> EmptyString ->
        snd (Prio.ToPriority (ConfigFile.jPriority jc)) = None ->
          cfgPriority c = fst (Prio.ToPriority (ConfigFile.jPriority jc)) /\
          diag = []) /\
       (ConfigFile.jPriority jc <> EmptyString ->
        snd (Prio.ToPriority (ConfigFile.jPriority jc)) <> None ->
          cfgPriority c = INFO /\ length diag = 1%nat)).
Proof.
  split; [|split; [|split]].
  - intros. reflexivity.
  - intros fn w f e um Hf. unfold ConfigFile.readConfigFile.
    apply String.eqb_neq in Hf. rewrite Hf.
    eexists. split; [reflexivity|].
    destruct w; split; intros H; try discriminate; auto;
      exfalso; apply H; reflexivity.
  - intros fn w f d um e Hf Hum. unfold ConfigFile.readConfigFile.
    apply String.eqb_neq in Hf. rewrite Hf, Hum. eexists. reflexivity.
  - intros fn w f d um jc Hf Hum.
    rewrite (readConfigFile_obj fn w f d um jc Hf Hum).
    destruct (jsonToConfig_fields fn jc) as (Hr & _ & Hn & Hb & Hs).
    destruct (jsonToConfig_priority fn jc) as (P1 & P2 & P3).
    do 2 eexists. split; [reflexivity|].
    split; [exact Hr|]. split; [rewrite Hn; reflexivity|].
    split; [rewrite Hb; reflexivity|]. split; [exact Hs|].
    split; [exact P1 | split; [exact P2 | exact P3]].
Qed.

Lemma String_of_cases (p : Priority) (name : string) :
  Prio.String_of p = Some name ->
  (p = EXIT /\ name = "EXIT"%string) \/ (p = PANIC /\ name = "PANIC"%string) \/
  (p = WARNING /\ name = "WARNING"%string) \/ (p = INFO /\ name = "INFO"%string) \/
  (p = DEBUG /\ name = "DEBUG"%string).
Proof.
  unfold Prio.String_of.
  destruct (Z.eqb_spec p EXIT); [intros H; injection H as <-; auto|].
  destruct (Z.eqb_spec p PANIC); [intros H; injection H as <-; auto|].
  destruct (Z.eqb_spec p WARNING); [intros H; injection H as <-; auto 6|].
  destruct (Z.eqb_spec p INFO); [intros H; injection H as <-; auto 8|].
  destruct (Z.eqb_spec p DEBUG); [intros H; injection H as <-; auto 10|].
  discriminate.
Qed.

Lemma ToPriority_of_upper (s : string) (p : Priority) (name : string) :
  Prio.String_of p = Some name -> Prio.ToUpper s = Prio.bytes name ->
  Prio.ToPriority s = (p, None).
Proof.
  intros Hs Hu. unfold Prio.ToPriority. rewrite Hu.
  apply String_of_cases in Hs.
  destruct Hs as [[-> ->]|[[-> ->]|[[-> ->]|[[-> ->]|[-> ->]]]]];
    vm_compute; reflexivity.
Qed.

Lemma ToPriority_ok_inv (s : string) :
  snd (Prio.ToPriority s) = None ->
  exists name, Prio.String_of (fst (Prio.ToPriority s)) = Some name /\
               Prio.ToUpper s = Prio.bytes name.
Proof.
  unfold Prio.ToPriority.
  destruct (decide _) as [E|_]; [intros _; exists "EXIT"%string; auto|].
  destruct (decide _) as [E|_]; [intros _; exists "PANIC"%string; auto|].
  destruct (decide _) as [E|_]; [intros _; exists "WARNING"%string; auto|].
  destruct (decide _) as [E|_]; [intros _; exists "INFO"%string; auto|].
  destruct (decide _) as [E|_]; [intros _; exists "DEBUG"%string; auto|].
  simpl; intros H; discriminate H.
Qed.

Lemma ToPriority_invalid (s : string) :
  (forall p name, Prio.String_of p = Some name ->
     Prio.ToUpper s <> Prio.bytes name) ->
  Prio.ToPriority s =
    (DEBUG, Some (String.append "Invalid priority string "%string s)).
Proof.
  intros H. unfold Prio.ToPriority.
  destruct (decide _) as [E|_]; [exfalso; exact (H EXIT _ eq_refl E)|].
  destruct (decide _) as [E|_]; [exfalso; exact (H PANIC _ eq_refl E)|].
  destruct (decide _) as [E|_]; [exfalso; exact (H WARNING _ eq_refl E)|].
  destruct (decide _) as [E|_]; [exfalso; exact (H INFO _ eq_refl E)|].
  destruct (decide _) as [E|_]; [exfalso; exact (H DEBUG _ eq_refl E)|].
  reflexivity.
Qed.

Lemma ToUpper_ascii_capitalization (bs ns : list Z) :
  Forall2 (fun b n => b = n \/ b = n + 32) bs ns ->
  Forall (fun n => 65 <= n <= 90) ns ->
  map Prio.unicode_ToUpper (Prio.decode bs) = ns.
Proof.
  induction 1 as [|b n bs ns Hbn _ IH]; intros Hns; [reflexivity|].
  inversion Hns as [|? ? Hn Hns']; subst.
  assert (Hb : (b <? 0x80) = true) by (apply Z.ltb_lt; lia).
  simpl. rewrite Hb. simpl. rewrite (IH Hns'). f_equal.
  unfold Prio.unicode_ToUpper.
  destruct (Z.leb_spec 97 b), (Z.leb_spec b 122); simpl; try lia;
    destruct (Z.eqb_spec b 0x131); try lia;
    destruct (Z.eqb_spec b 0x17F); lia.
Qed.

Lemma names_upper (p : Priority) (name : string) :
  Prio.String_of p = Some name ->
  Forall (fun n => 65 <= n <= 90) (Prio.bytes name).
Proof.
  intros Hs. apply String_of_cases in Hs.
  destruct Hs as [[_ ->]|[[_ ->]|[[_ ->]|[[_ ->]|[_ ->]]]]];
    vm_compute Prio.bytes; repeat (constructor; [lia|]); constructor.
Qed.

(** C10 (counterexample): "ınfo" (dotless i, U+0131) is not a
    capitalization of any priority name, yet ToPriority accepts it as
    INFO, because strings.ToUpper maps U+0131 to 'I'. *)
Lemma ToPriority_accepts_dotless_i :
  Prio.ToPriority Samples.dotless_info = (INFO, None) /\
  (forall p name, Prio.String_of p = Some name ->
     ~ ascii_capitalization Samples.dotless_info name).
Proof.
  split; [vm_compute; reflexivity|].
  intros p name Hs Hc. apply String_of_cases in Hs.
  unfold ascii_capitalization in Hc.
  destruct Hs as [[_ ->]|[[_ ->]|[[_ ->]|[[_ ->]|[_ ->]]]]];
    vm_compute Prio.bytes in Hc;
    inversion Hc as [|b n bs ns Hbn]; subst; lia.
Qed.

(** C10 (amended): ToPriority(p.String()) = (p, nil) for the five
    priorities; ToPriority(s) = (p, nil) exactly when strings.ToUpper(s)
    is p's name, so every ASCII capitalization of a name is accepted, and
    otherwise it returns DEBUG with an error; being Unicode-aware,
    ToUpper also accepts spellings such as "ınfo". *)
Theorem ToPriority_upper_names :
  (forall p, declared p -> exists name, Prio.String_of p = Some name) /\
  (forall p name, Prio.String_of p = Some name ->
     Prio.ToPriority name = (p, None)) /\
  (forall s p name, Prio.String_of p = Some name ->
     (Prio.ToPriority s = (p, None) <-> Prio.ToUpper s = Prio.bytes name)) /\
  (forall s p name, Prio.String_of p = Some name ->
     ascii_capitalization s name -> Prio.ToPriority s = (p, None)) /\
  (forall s, (forall p name, Prio.String_of p = Some name ->
                Prio.ToUpper s <> Prio.bytes name) ->
     Prio.ToPriority s =
       (DEBUG, Some (String.append "Invalid priority string "%string s))) /\
  Prio.ToPriority Samples.dotless_info = (INFO, None).
Proof.
  split; [|split; [|split; [|split; [|split]]]].
  - intros p Hp. unfold declared in Hp.
    assert (p = 0 \/ p = 1 \/ p = 2 \/ p = 3 \/ p = 4) as Hc by lia.
    destruct Hc as [->|[->|[->|[->| ->]]]]; eexists; reflexivity.
  - intros p name Hs. apply (ToPriority_of_upper _ p name Hs).
    pose proof (names_upper p name Hs) as Hu.
    unfold Prio.ToUpper. apply ToUpper_ascii_capitalization; [|exact Hu].
    clear Hs. induction Hu; constructor; auto.
  - intros s p name Hs. split.
    + intros H. destruct (ToPriority_ok_inv s) as (name' & Hs' & Hu');
        [rewrite H; reflexivity|].
      rewrite H in Hs'. simpl in Hs'. rewrite Hs in Hs'.
      injection Hs' as ->. exact Hu'.
    + apply ToPriority_of_upper. exact Hs.
  - intros s p name Hs Hc. apply (ToPriority_of_upper _ p name Hs).
    unfold Prio.ToUpper. apply ToUpper_ascii_capitalization; [exact Hc|].
    exact (names_upper p name Hs).
  - exact ToPriority_invalid.
  - vm_compute. reflexivity.
Qed.

(* ------------------------------------------------------------------ *)
(** ** FileSet *)

Lemma compare_le_trans (a : string) : forall b c,
  String.compare a b <> Gt -> String.compare b c <> Gt ->
  String.compare a c <> Gt.
Proof.
  induction a as [|x a IH]; intros [|y b] [|z c]; simpl; try congruence.
  unfold Ascii.compare.
  destruct (N.compare_spec (N_of_ascii x) (N_of_ascii y));
    destruct (N.compare_spec (N_of_ascii y) (N_of_ascii z));
    destruct (N.compare_spec (N_of_ascii x) (N_of_ascii z));
    try lia; try congruence.
  exact (IH b c).
Qed.

Lemma name_le_trans : Transitive Files.name_le.
Proof.
  intros a b c. unfold Files.name_le, String.leb.
  pose proof (compare_le_trans a b c) as H.
  destruct (String.compare a b), (String.compare b c), (String.compare a c);
    intuition congruence.
Qed.

Lemma name_le_total : Total Files.name_le.
Proof. intros a b. apply String.leb_total. Qed.

Lemma name_le_neq_lt a b :
  Files.name_le a b -> a <> b -> String.ltb a b = true.
Proof.
  unfold Files.name_le, String.leb, String.ltb.
  destruct (String.compare a b) eqn:Hc; try congruence.
  apply String.compare_eq_iff in Hc. contradiction.
Qed.

Lemma wrap_int_id z : - 2 ^ 63 <= z < 2 ^ 63 -> Files.wrap_int z = z.
Proof.
  intros H. unfold Files.wrap_int. rewrite Z.mod_small by lia. lia.
Qed.

Lemma existsb_eqb_In (a : string) (l : list string) :
  existsb (String.eqb a) l = true <-> In a l.
Proof.
  rewrite existsb_exists. split.
  - intros (x & Hx & He). apply String.eqb_eq in He. subst. exact Hx.
  - intros H. exists a. split; [exact H | apply String.eqb_refl].
Qed.

Lemma rmFile_mem E f d d' :
  Files.rmFile E f d = Some d' -> forall x, In x d' <-> In x d /\ x <> f.
Proof.
  unfold Files.rmFile. destruct (Files.removeFails E f); [discriminate|].
  destruct (existsb _ _); [|discriminate].
  intros H. injection H as <-. intros x.
  rewrite filter_In, negb_true_iff, String.eqb_neq. tauto.
Qed.

Lemma rmFile_In E f d :
  Files.removeFails E f = false -> In f d ->
  Files.rmFile E f d = Some (List.filter (fun x => negb (String.eqb x f)) d).
Proof.
  intros Hr H. unfold Files.rmFile. rewrite Hr.
  apply existsb_eqb_In in H. rewrite H. reflexivity.
Qed.

Lemma filter_neq_notin (f : string) (d : list string) :
  ~ In f d -> List.filter (fun x => negb (String.eqb x f)) d = d.
Proof.
  induction d as [|y d IH]; simpl; intros Hn; [reflexivity|].
  destruct (String.eqb_spec y f) as [->|Hne]; [exfalso; tauto|].
  simpl. rewrite IH; tauto.
Qed.

Lemma filter_neq_length (f : string) (d : list string) :
  List.NoDup d -> In f d ->
  S (length (List.filter (fun x => negb (String.eqb x f)) d)) = length d.
Proof.
  induction d as [|y d IH]; simpl; intros Hd Hi; [contradiction|].
  apply List.NoDup_cons_iff in Hd as [Hy Hd].
  destruct (String.eqb_spec y f) as [->|Hne]; simpl.
  - rewrite filter_neq_notin by exact Hy. reflexivity.
  - rewrite IH; [reflexivity | exact Hd |].
    destruct Hi as [->|Hi]; [congruence | exact Hi].
Qed.

Lemma rm_oldest_past_end E n lf d :
  (length lf < n)%nat -> Files.rm_oldest E n lf d = None.
Proof.
  revert n d. induction lf as [|f lf IH]; intros [|n] d Hl; simpl in *;
    try lia; [reflexivity|].
  destruct (Files.rmFile E f d); [apply IH; lia | reflexivity].
Qed.

Lemma rm_oldest_mem E n lf d d' :
  Files.rm_oldest E n lf d = Some d' ->
  forall x, In x d' <-> In x d /\ ~ In x (firstn n lf).
Proof.
  revert lf d. induction n as [|n IH]; intros lf d H x; simpl in H.
  - injection H as <-. simpl. tauto.
  - destruct lf as [|f lf]; [discriminate|].
    destruct (Files.rmFile E f d) as [d1|] eqn:Hr; [|discriminate].
    rewrite (IH _ _ H x), (rmFile_mem _ _ _ _ Hr x). simpl. intuition.
Qed.

Lemma rm_oldest_ok E n lf d :
  (forall f, Files.removeFails E f = false) ->
  List.NoDup d -> List.NoDup lf -> (forall x, In x lf -> In x d) ->
  (n <= length lf)%nat ->
  exists d', Files.rm_oldest E n lf d = Some d' /\ List.NoDup d' /\
             (length d' + n = length d)%nat.
Proof.
  intros HE. revert lf d.
  induction n as [|n IH]; intros lf d Hd Hlf Hinc Hn; simpl.
  - exists d. auto with arith.
  - destruct lf as [|f lf]; simpl in Hn; [lia|].
    apply List.NoDup_cons_iff in Hlf as [Hf Hlf].
    rewrite rmFile_In by (apply HE || (apply Hinc; left; reflexivity)).
    destruct (IH lf (List.filter (fun x => negb (String.eqb x f)) d))
      as (d' & Hr & Hd' & Hl).
    + apply List.NoDup_filter. exact Hd.
    + exact Hlf.
    + intros x Hx. apply filter_In. split; [apply Hinc; right; exact Hx|].
      apply negb_true_iff, String.eqb_neq. intros ->. contradiction.
    + lia.
    + exists d'. split; [exact Hr|]. split; [exact Hd'|].
      rewrite <- (filter_neq_length f d Hd) by (apply Hinc; left; reflexivity).
      lia.
Qed.

Lemma ListLogFiles_some E d lf :
  Files.ListLogFiles E d = Some lf ->
  Permutation lf d /\ StronglySorted Files.name_le lf.
Proof.
  unfold Files.ListLogFiles. destruct (Files.badPattern E); [discriminate|].
  intros H. injection H as <-. split; [apply merge_sort_Permutation|].
  apply StronglySorted_merge_sort; [exact name_le_trans | exact name_le_total].
Qed.

Lemma newFile_some E fs d fs1 :
  Files.newFile E fs d = Some fs1 ->
  fs1 = Files.mkFileSet (Some (Files.nameAt E (Files.now fs)))
          (Files.currentFileSize fs) (Files.maxFileSize fs)
          (Files.maxNumFiles fs)
          (if existsb (String.eqb (Files.nameAt E (Files.now fs))) d then d
           else d ++ [Files.nameAt E (Files.now fs)])
          (Files.msgChan fs) (Files.now fs + 1).
Proof.
  unfold Files.newFile. destruct (Files.createFails _ _); [discriminate|].
  intros H. injection H as <-. reflexivity.
Qed.

Lemma rotate_some_inv E fs fs' :
  Files.rotate E fs = Some fs' ->
  exists lf d fs1, Files.ListLogFiles E (Files.dir fs) = Some lf /\
    Files.rm_oldest E
      (Z.to_nat (Files.wrap_int (Z.of_nat (length lf) - Files.maxNumFiles fs + 1)))
      lf (Files.dir fs) = Some d /\
    Files.newFile E fs d = Some fs1 /\ fs' = Files.set_size fs1 0.
Proof.
  unfold Files.rotate.
  destruct (Files.ListLogFiles E (Files.dir fs)) as [lf|]; [|discriminate].
  destruct (Files.rm_oldest _ _ _ _) as [d|] eqn:Hr; [|discriminate].
  destruct (Files.newFile E fs d) as [fs1|] eqn:Hn; [|discriminate].
  intros H. injection H as <-. exists lf, d, fs1. auto.
Qed.

Lemma newFile_dir_mem E fs d fs1 x :
  Files.newFile E fs d = Some fs1 ->
  In x (Files.dir fs1) <-> In x d \/ x = Files.nameAt E (Files.now fs).
Proof.
  intros H. apply newFile_some in H. subst fs1. simpl.
  destruct (existsb _ d) eqn:He.
  - apply existsb_eqb_In in He. split; [tauto|].
    intros [H| ->]; [exact H | exact He].
  - rewrite in_app_iff. simpl. intuition.
Qed.

Lemma rotate_preserves E fs fs' :
  Files.rotate E fs = Some fs' ->
  Files.currentFile fs' = Some (Files.nameAt E (Files.now fs)) /\
  Files.currentFileSize fs' = 0 /\
  Files.maxFileSize fs' = Files.maxFileSize fs /\
  Files.maxNumFiles fs' = Files.maxNumFiles fs /\
  Files.msgChan fs' = Files.msgChan fs /\ Files.now fs' = Files.now fs + 1.
Proof.
  intros H. destruct (rotate_some_inv _ _ _ H) as (lf & d & fs1 & _ & _ & Hn & ->).
  apply newFile_some in Hn. subst fs1. simpl. auto 10.
Qed.

(** FileSet.rotate, when the glob pattern is well formed, os.Remove and
    the os.Create of the new file succeed, 1 <= maxNumFiles and the
    directory has no duplicates, does not panic: it leaves at most
    maxNumFiles files, the new file being the current one with a zero byte
    count. *)
Theorem rotate_keeps_at_most_maxNumFiles E fs :
  Files.badPattern E = false -> (forall f, Files.removeFails E f = false) ->
  Files.createFails E (Files.nameAt E (Files.now fs)) = false ->
  1 <= Files.maxNumFiles fs < 2 ^ 63 ->
  Z.of_nat (length (Files.dir fs)) < 2 ^ 63 ->
  List.NoDup (Files.dir fs) ->
  exists fs', Files.rotate E fs = Some fs' /\
    Z.of_nat (length (Files.dir fs')) <= Files.maxNumFiles fs /\
    List.NoDup (Files.dir fs') /\
    Files.currentFile fs' = Some (Files.nameAt E (Files.now fs)) /\
    In (Files.nameAt E (Files.now fs)) (Files.dir fs') /\
    Files.currentFileSize fs' = 0.
Proof.
  intros Hb Hrm Hcr Hm Hlen0 Hd.
  set (lf := merge_sort Files.name_le (Files.dir fs)).
  assert (Hl : Files.ListLogFiles E (Files.dir fs) = Some lf)
    by (unfold Files.ListLogFiles; rewrite Hb; reflexivity).
  destruct (ListLogFiles_some _ _ _ Hl) as [Hp _].
  assert (Hlen : length lf = length (Files.dir fs))
    by exact (Permutation_length Hp).
  destruct (rm_oldest_ok E
              (Z.to_nat (Z.of_nat (length lf) - Files.maxNumFiles fs + 1))
              lf (Files.dir fs)) as (d & Hr & Hnd & Hld).
  - exact Hrm.
  - exact Hd.
  - exact (Permutation_NoDup (Permutation_sym Hp) Hd).
  - intros x Hx. exact (Permutation_in _ Hp Hx).
  - lia.
  - unfold Files.rotate. rewrite Hl.
    rewrite wrap_int_id by lia. rewrite Hr.
    unfold Files.newFile. rewrite Hcr.
    eexists; split; [reflexivity|]. simpl.
    destruct (existsb (String.eqb (Files.nameAt E (Files.now fs))) d) eqn:He.
    + apply existsb_eqb_In in He.
      split; [lia|]. auto.
    + split; [rewrite length_app; simpl; lia|].
      split; [|split; [reflexivity|split; [apply in_app_iff; right; left;
                                            reflexivity | reflexivity]]].
      apply (Permutation_NoDup
               (Permutation_cons_append d (Files.nameAt E (Files.now fs)))).
      constructor; [|exact Hnd].
      intros Hi. apply existsb_eqb_In in Hi. congruence.
Qed.

Lemma rotate_keeps_at_most_maxNumFiles_witness :
  exists fs', Files.rotate FileSamples.env_ok FileSamples.fs_three = Some fs' /\
    Z.of_nat (length (Files.dir fs')) <= 2 /\
    List.NoDup (Files.dir fs') /\
    Files.currentFile fs' = Some "4.log"%string /\
    In "4.log"%string (Files.dir fs') /\
    Files.currentFileSize fs' = 0.
Proof.
  apply (rotate_keeps_at_most_maxNumFiles FileSamples.env_ok
           FileSamples.fs_three).
  - reflexivity.
  - intros f. reflexivity.
  - reflexivity.
  - simpl. lia.
  - simpl. lia.
  - repeat constructor; simpl; intuition discriminate.
Defined.

(** FileSet.rotate deletes the files whose names come first in the
    sort.Strings order: each deleted file's name is smaller, byte-wise,
    than the name of each old file kept.  (These are the oldest files only
    when the order of the names is the order of their creation.) *)
Theorem rotate_deletes_first_names E fs fs' :
  Files.rotate E fs = Some fs' ->
  forall f k, In f (Files.dir fs) -> ~ In f (Files.dir fs') ->
    In k (Files.dir fs) -> In k (Files.dir fs') ->
    k <> Files.nameAt E (Files.now fs) -> String.ltb f k = true.
Proof.
  intros Hrot f k Hf Hf' Hk Hk' Hkn.
  destruct (rotate_some_inv _ _ _ Hrot) as (lf & d & fs1 & Hl & Hr & Hn & ->).
  set (n := Z.to_nat _) in Hr.
  destruct (ListLogFiles_some _ _ _ Hl) as [Hp Hs].
  pose proof (rm_oldest_mem _ _ _ _ _ Hr) as Hm.
  change (Files.dir (Files.set_size fs1 0)) with (Files.dir fs1) in Hf', Hk'.
  rewrite (newFile_dir_mem _ _ _ _ f Hn) in Hf'.
  rewrite (newFile_dir_mem _ _ _ _ k Hn) in Hk'.
  assert (Hkd : In k d) by (destruct Hk' as [H|H]; [exact H | contradiction]).
  assert (Hfd : In f (firstn n lf)).
  { destruct (In_dec String.string_dec f (firstn n lf)) as [H|H]; [exact H|].
    exfalso. apply Hf'. left. apply Hm. auto. }
  assert (Hks : In k (skipn n lf)).
  { apply Hm in Hkd as [Hkd Hkn'].
    apply (Permutation_in _ (Permutation_sym Hp)) in Hkd.
    rewrite <- (firstn_skipn n lf) in Hkd. apply in_app_iff in Hkd.
    tauto. }
  apply name_le_neq_lt.
  - rewrite <- (firstn_skipn n lf) in Hs.
    apply (StronglySorted_app_1_elem_of _ _ _ _ _ Hs);
      apply list_elem_of_In; assumption.
  - intros ->. apply Hf'. left. exact Hkd.
Qed.

Lemma rotate_deletes_first_names_witness :
  Files.rotate FileSamples.env_ok FileSamples.fs_three
    = Some (Files.mkFileSet (Some "4.log"%string) 0 10 2
              ["3.log"%string; "4.log"%string] [] 5) /\
  String.ltb "1.log"%string "3.log"%string = true.
Proof.
  split; [vm_compute; reflexivity|].
  apply (rotate_deletes_first_names FileSamples.env_ok FileSamples.fs_three
           (Files.mkFileSet (Some "4.log"%string) 0 10 2
              ["3.log"%string; "4.log"%string] [] 5)).
  - vm_compute. reflexivity.
  - simpl. tauto.
  - simpl. intuition discriminate.
  - simpl. tauto.
  - simpl. tauto.
  - discriminate.
Defined.

(** With maxNumFiles < 1 the delete count, when the int expression
    len(logFiles) - maxNumFiles + 1 does not overflow, exceeds the number
    of log files and the loop indexes past the end of logFiles: rotate
    panics, and so does New (whose run starts with rotate). *)
Theorem rotate_panics_below_one_file E fs :
  Files.maxNumFiles fs < 1 ->
  Z.of_nat (length (Files.dir fs)) + 1 - 2 ^ 63 < Files.maxNumFiles fs ->
  Files.rotate E fs = None /\
  forall d t sz, Z.of_nat (length d) + 1 - 2 ^ 63 < Files.maxNumFiles fs ->
    Files.New E d t sz (Files.maxNumFiles fs) = None.
Proof.
  assert (Hr : forall g, Files.maxNumFiles g < 1 ->
                 Z.of_nat (length (Files.dir g)) + 1 - 2 ^ 63 < Files.maxNumFiles g ->
                 Files.rotate E g = None).
  { intros g Hg Ho. unfold Files.rotate.
    destruct (Files.ListLogFiles E (Files.dir g)) as [lf|] eqn:Hl; [|reflexivity].
    destruct (ListLogFiles_some _ _ _ Hl) as [Hp _].
    pose proof (Permutation_length Hp) as Hlen.
    rewrite wrap_int_id by lia.
    rewrite rm_oldest_past_end by lia. reflexivity. }
  intros H Ho. split; [exact (Hr fs H Ho)|].
  intros d t sz Hd. unfold Files.New.
  destruct (Files.mkdirFails E); [reflexivity|]. apply Hr; simpl; assumption.
Qed.

Lemma rotate_panics_below_one_file_witness :
  Files.rotate FileSamples.env_ok
    (Files.mkFileSet None 0 10 0 ["1.log"%string] [] 2) = None /\
  forall d t sz, Z.of_nat (length d) + 1 - 2 ^ 63 < 0 ->
    Files.New FileSamples.env_ok d t sz 0 = None.
Proof.
  apply (rotate_panics_below_one_file FileSamples.env_ok
           (Files.mkFileSet None 0 10 0 ["1.log"%string] [] 2)); simpl; lia.
Defined.

Lemma log_msgChan E fs n w fs' r :
  Files.log E fs n w = Some (fs', r) -> Files.msgChan fs' = Files.msgChan fs.
Proof.
  unfold Files.log. destruct (Files.currentFile fs); [|congruence].
  destruct (snd w); [congruence|].
  destruct (_ <=? _); [|intros H; injection H as <- _; reflexivity].
  destruct (Files.rotate _ _) as [fs2|] eqn:Hr; [|discriminate].
  intros H; injection H as <- _.
  apply rotate_preserves in Hr. apply Hr.
Qed.

Lemma drain_msgChan E q fs fs' :
  Files.drain E q fs = Some fs' -> Files.msgChan fs' = Files.msgChan fs.
Proof.
  revert fs. induction q as [|n q IH]; simpl; intros fs H.
  - congruence.
  - destruct (Files.log E fs n (n, None)) as [[fs1 r]|] eqn:Hl; [|discriminate].
    rewrite (IH _ H). exact (log_msgChan _ _ _ _ _ _ Hl).
Qed.

Lemma log_keeps_file E fs n w fs' r :
  Files.log E fs n w = Some (fs', r) -> Files.currentFile fs <> None ->
  Files.currentFile fs' <> None.
Proof.
  unfold Files.log. destruct (Files.currentFile fs) as [cf|] eqn:Hc;
    [intros H _|intros _ H; contradiction].
  destruct (snd w); [injection H as <- _; rewrite Hc; discriminate|].
  destruct (_ <=? _); [|injection H as <- _; simpl; rewrite Hc; discriminate].
  destruct (Files.rotate _ _) as [fs2|] eqn:Hr; [|discriminate].
  injection H as <- _. apply rotate_preserves in Hr as [-> _]. discriminate.
Qed.

Lemma drain_keeps_file E q fs fs' :
  Files.drain E q fs = Some fs' -> Files.currentFile fs <> None ->
  Files.currentFile fs' <> None.
Proof.
  revert fs. induction q as [|n q IH]; simpl; intros fs H Hc.
  - congruence.
  - destruct (Files.log E fs n (n, None)) as [[fs1 r]|] eqn:Hl; [|discriminate].
    exact (IH _ H (log_keeps_file _ _ _ _ _ _ Hl Hc)).
Qed.

Lemma fs_run_keeps_file E evs fs fs' :
  Files.fs_run E fs evs = Some fs' -> Files.currentFile fs <> None ->
  Files.currentFile fs' <> None.
Proof.
  revert fs. induction evs as [|ev evs IH]; simpl; intros fs H Hc.
  - congruence.
  - destruct (Files.fs_step E fs ev) as [fs1|] eqn:Hs; [|discriminate].
    apply (IH _ H). destruct ev as [n | w | nf sz]; simpl in Hs.
    + destruct (_ <? _)%nat; [|discriminate]. injection Hs as <-. exact Hc.
    + destruct (Files.msgChan fs) as [|n rest]; [discriminate|].
      destruct (Files.log _ _ _ _) as [[fs2 r]|] eqn:Hl; [|discriminate].
      injection Hs as <-. exact (log_keeps_file _ _ _ _ _ _ Hl Hc).
    + unfold Files.setConfig in Hs. destruct (_ <? _).
      * apply rotate_preserves in Hs as [-> _]. discriminate.
      * injection Hs as <-. exact Hc.
Qed.

Lemma drain_no_file E q fs :
  Files.currentFile fs = None -> Files.drain E q fs = Some fs.
Proof.
  intros Hc. induction q as [|n q IH]; simpl; [reflexivity|].
  unfold Files.log at 1. rewrite Hc. exact IH.
Qed.

(** FileSet.log after a successful write of len(buf) bytes adds them to
    currentFileSize; when the count reaches maxFileSize the set rotates to a
    new file with a zero count, so the count stays below a positive
    maxFileSize.  The write result is returned unchanged. *)
Theorem log_counts_written_bytes E fs cf buflen w fs' r :
  Files.currentFile fs = Some cf -> 1 <= Files.maxFileSize fs ->
  Files.log E fs buflen (w, None) = Some (fs', r) ->
  r = (w, None) /\ Files.maxFileSize fs' = Files.maxFileSize fs /\
  Files.currentFileSize fs' < Files.maxFileSize fs /\
  (Files.currentFileSize fs + buflen < Files.maxFileSize fs ->
     fs' = Files.set_size fs (Files.currentFileSize fs + buflen)) /\
  (Files.maxFileSize fs <= Files.currentFileSize fs + buflen ->
     Files.currentFile fs' = Some (Files.nameAt E (Files.now fs)) /\
     Files.currentFileSize fs' = 0).
Proof.
  intros Hc Hm. unfold Files.log. rewrite Hc. simpl.
  destruct (Z.leb_spec (Files.maxFileSize fs) (Files.currentFileSize fs + buflen))
    as [Hge|Hlt].
  - destruct (Files.rotate _ _) as [fs2|] eqn:Hr; [|discriminate].
    intros H. injection H as <- <-.
    apply rotate_preserves in Hr as (Hc2 & Hs2 & Hm2 & _).
    simpl in *. rewrite Hc2, Hs2, Hm2. repeat split; auto; lia.
  - intros H. injection H as <- <-. simpl. repeat split; auto; lia.
Qed.

Lemma log_counts_written_bytes_witness :
  Files.log FileSamples.env_ok
    (Files.mkFileSet (Some "1.log"%string) 6 10 3 ["1.log"%string] [] 2) 4
    (4, None)
    = Some (Files.mkFileSet (Some "2.log"%string) 0 10 3
              ["1.log"%string; "2.log"%string] [] 3, (4, None)) /\
  ((((4, None) : Z * option string) = (4, None)) /\ 10 = 10 /\ 0 < 10 /\
   (6 + 4 < 10 -> Files.mkFileSet (Some "2.log"%string) 0 10 3
                    ["1.log"%string; "2.log"%string] [] 3 =
                  Files.set_size (Files.mkFileSet (Some "1.log"%string) 6 10 3
                                    ["1.log"%string] [] 2) (6 + 4)) /\
   (10 <= 6 + 4 -> Some "2.log"%string = Some "2.log"%string /\ 0 = 0)).
Proof.
  split; [vm_compute; reflexivity|].
  apply (log_counts_written_bytes FileSamples.env_ok
           (Files.mkFileSet (Some "1.log"%string) 6 10 3 ["1.log"%string] [] 2)
           "1.log"%string 4 4
           (Files.mkFileSet (Some "2.log"%string) 0 10 3
              ["1.log"%string; "2.log"%string] [] 3) (4, None)).
  - reflexivity.
  - simpl. lia.
  - vm_compute. reflexivity.
Defined.

(** FileSet.setConfig with a limit equal to the current byte count does not
    rotate (the test is [>], not [>=] as in log); the next successful
    write, even of zero bytes, then rotates. *)
Theorem setConfig_at_limit_defers_rotation E fs cf nf fs1 :
  Files.currentFile fs = Some cf -> 1 <= Files.currentFileSize fs ->
  Files.setConfig E fs nf (Files.currentFileSize fs) = Some fs1 ->
  Files.currentFile fs1 = Some cf /\ Files.dir fs1 = Files.dir fs /\
  Files.currentFileSize fs1 = Files.maxFileSize fs1 /\
  forall w fs2 r, Files.log E fs1 0 (w, None) = Some (fs2, r) ->
    Files.currentFile fs2 = Some (Files.nameAt E (Files.now fs)) /\
    Files.currentFileSize fs2 = 0.
Proof.
  intros Hc Hs. unfold Files.setConfig. simpl.
  rewrite Z.ltb_irrefl. intros H. injection H as <-. simpl.
  split; [exact Hc|]. split; [reflexivity|]. split; [reflexivity|].
  intros w fs2 r Hl.
  assert (Hm : 1 <= Files.maxFileSize
                      (Files.set_limits fs nf (Files.currentFileSize fs)))
    by (simpl; lia).
  destruct (log_counts_written_bytes E
              (Files.set_limits fs nf (Files.currentFileSize fs))
              cf 0 w fs2 r Hc Hm Hl)
    as (_ & _ & _ & _ & Hr). apply Hr. simpl. lia.
Qed.

Lemma setConfig_at_limit_defers_rotation_witness :
  Files.setConfig FileSamples.env_ok
    (Files.mkFileSet (Some "1.log"%string) 5 10 3 ["1.log"%string] [] 2) 3 5
    = Some (Files.mkFileSet (Some "1.log"%string) 5 5 3 ["1.log"%string] [] 2) /\
  (Some "1.log"%string = Some "1.log"%string /\
   ["1.log"%string] = ["1.log"%string] /\ 5 = 5 /\
   forall w fs2 r,
     Files.log FileSamples.env_ok
       (Files.mkFileSet (Some "1.log"%string) 5 5 3 ["1.log"%string] [] 2) 0
       (w, None) = Some (fs2, r) ->
     Files.currentFile fs2 = Some (Files.nameAt FileSamples.env_ok 2) /\
     Files.currentFileSize fs2 = 0).
Proof.
  split; [vm_compute; reflexivity|].
  apply (setConfig_at_limit_defers_rotation FileSamples.env_ok
           (Files.mkFileSet (Some "1.log"%string) 5 10 3 ["1.log"%string] [] 2)
           "1.log"%string 3
           (Files.mkFileSet (Some "1.log"%string) 5 5 3 ["1.log"%string] [] 2)).
  - reflexivity.
  - simpl. lia.
  - vm_compute. reflexivity.
Defined.

(** FileSet.close drains the pending writes into the file set, then
    removes the current file from the directory exactly when its byte
    count is below 1, and leaves no pending write. *)
Theorem close_removes_unwritten_file E fs fs' :
  Files.close E fs = Some fs' ->
  Files.msgChan fs' = [] /\
  exists fs1 cf,
    Files.drain E (Files.msgChan fs) (Files.clear_msgChan fs) = Some fs1 /\
    Files.currentFile fs1 = Some cf /\ Files.currentFile fs' = Some cf /\
    (Files.currentFileSize fs1 < 1 ->
       forall x, In x (Files.dir fs') <-> In x (Files.dir fs1) /\ x <> cf) /\
    (1 <= Files.currentFileSize fs1 -> Files.dir fs' = Files.dir fs1).
Proof.
  unfold Files.close.
  destruct (Files.drain _ _ _) as [fs1|] eqn:Hd; [|discriminate].
  pose proof (drain_msgChan _ _ _ _ Hd) as Hq. simpl in Hq.
  destruct (Files.currentFile fs1) as [cf|] eqn:Hc; [|discriminate].
  destruct (Z.ltb_spec (Files.currentFileSize fs1) 1) as [Hlt|Hge].
  - destruct (Files.rmFile E cf (Files.dir fs1)) as [d|] eqn:Hr; [|discriminate].
    intros H. injection H as <-. simpl. split; [exact Hq|].
    exists fs1, cf. split; [reflexivity|]. split; [exact Hc|].
    split; [exact Hc|]. split.
    + intros _ x. exact (rmFile_mem _ _ _ _ Hr x).
    + intros H. lia.
  - intros H. injection H as <-. split; [exact Hq|].
    exists fs1, cf. repeat split; auto; lia.
Qed.

Lemma close_removes_unwritten_file_witness :
  Files.close FileSamples.env_ok
    (Files.mkFileSet (Some "2.log"%string) 0 10 3
       ["1.log"%string; "2.log"%string] [] 3)
    = Some (Files.mkFileSet (Some "2.log"%string) 0 10 3 ["1.log"%string] [] 3) /\
  ([] : list Z) = [] /\
  exists fs1 cf,
    Files.drain FileSamples.env_ok []
      (Files.clear_msgChan (Files.mkFileSet (Some "2.log"%string) 0 10 3
                              ["1.log"%string; "2.log"%string] [] 3))
      = Some fs1 /\
    Files.currentFile fs1 = Some cf /\ Some "2.log"%string = Some cf /\
    (Files.currentFileSize fs1 < 1 ->
       forall x, In x ["1.log"%string] <-> In x (Files.dir fs1) /\ x <> cf) /\
    (1 <= Files.currentFileSize fs1 -> ["1.log"%string] = Files.dir fs1).
Proof.
  split; [vm_compute; reflexivity|].
  exact (close_removes_unwritten_file FileSamples.env_ok
           (Files.mkFileSet (Some "2.log"%string) 0 10 3
              ["1.log"%string; "2.log"%string] [] 3)
           (Files.mkFileSet (Some "2.log"%string) 0 10 3 ["1.log"%string] [] 3)
           ltac:(vm_compute; reflexivity)).
Defined.

(** Every state of the FileSet goroutine reached from New through Write
    requests, their handling by log and SetConfig has an open current
    file; so its close never calls Name() on a nil file and panics only
    through a failed rotation while draining or a failed os.Remove of the
    unwritten current file. *)
Theorem close_after_New_panics_only_on_fs_errors E d t sz nf fs0 evs fs :
  Files.New E d t sz nf = Some fs0 -> Files.fs_run E fs0 evs = Some fs ->
  Files.currentFile fs <> None /\
  (Files.close E fs = None ->
     Files.drain E (Files.msgChan fs) (Files.clear_msgChan fs) = None \/
     exists fs1 cf,
       Files.drain E (Files.msgChan fs) (Files.clear_msgChan fs) = Some fs1 /\
       Files.currentFile fs1 = Some cf /\ Files.currentFileSize fs1 < 1 /\
       Files.rmFile E cf (Files.dir fs1) = None).
Proof.
  intros HN Hr.
  assert (H0 : Files.currentFile fs0 <> None).
  { unfold Files.New in HN. destruct (Files.mkdirFails E); [discriminate|].
    apply rotate_preserves in HN as [-> _]. discriminate. }
  pose proof (fs_run_keeps_file _ _ _ _ Hr H0) as Hf.
  split; [exact Hf|].
  unfold Files.close.
  destruct (Files.drain E _ _) as [fs1|] eqn:Hd; [intros Hcl; right|left; reflexivity].
  assert (Hf1 : Files.currentFile fs1 <> None)
    by (apply (drain_keeps_file _ _ _ _ Hd); simpl; exact Hf).
  destruct (Files.currentFile fs1) as [cf|] eqn:Hc; [|contradiction].
  exists fs1, cf. split; [reflexivity|]. split; [exact Hc|].
  destruct (Z.ltb_spec (Files.currentFileSize fs1) 1) as [Hlt|Hge];
    [|discriminate].
  split; [exact Hlt|].
  destruct (Files.rmFile E cf (Files.dir fs1)); [discriminate | reflexivity].
Qed.

Lemma close_after_New_panics_only_on_fs_errors_witness :
  Files.New FileSamples.env_ok [] 1 100 3 =
    Some (Files.mkFileSet (Some "1.log"%string) 0 100 3 ["1.log"%string] [] 2) /\
  Files.fs_run FileSamples.env_ok
    (Files.mkFileSet (Some "1.log"%string) 0 100 3 ["1.log"%string] [] 2)
    [Files.FSend 10; Files.FRecv (10, None)] =
    Some (Files.mkFileSet (Some "1.log"%string) 10 100 3 ["1.log"%string] [] 2) /\
  Files.currentFile
    (Files.mkFileSet (Some "1.log"%string) 10 100 3 ["1.log"%string] [] 2) <> None.
Proof.
  split; [vm_compute; reflexivity|]. split; [vm_compute; reflexivity|].
  exact (proj1 (close_after_New_panics_only_on_fs_errors FileSamples.env_ok
           [] 1 100 3
           (Files.mkFileSet (Some "1.log"%string) 0 100 3 ["1.log"%string] [] 2)
           [Files.FSend 10; Files.FRecv (10, None)]
           (Files.mkFileSet (Some "1.log"%string) 10 100 3 ["1.log"%string] [] 2)
           ltac:(vm_compute; reflexivity) ltac:(vm_compute; reflexivity))).
Defined.

(* ------------------------------------------------------------------ *)
(** ** The logger: records, queue, exit and configuration *)

Lemma Split_no_sep sep s :
  ~ In sep (list_ascii_of_string s) -> GoStrings.Split sep s = [s].
Proof.
  induction s as [|c r IH]; simpl; intros Hn; [reflexivity|].
  destruct (Ascii.eqb_spec c sep) as [->|Hne]; [exfalso; tauto|].
  rewrite IH by tauto. reflexivity.
Qed.

Lemma Split_app_sep sep s t :
  ~ In sep (list_ascii_of_string s) ->
  GoStrings.Split sep (String.append s (String sep t)) =
  s :: GoStrings.Split sep t.
Proof.
  induction s as [|c r IH]; simpl; intros Hn.
  - rewrite Ascii.eqb_refl. reflexivity.
  - destruct (Ascii.eqb_spec c sep) as [->|Hne]; [exfalso; tauto|].
    rewrite IH by tauto. reflexivity.
Qed.

Lemma Split_parts_no_sep sep s :
  Forall (fun x => ~ In sep (list_ascii_of_string x)) (GoStrings.Split sep s).
Proof.
  induction s as [|c r IH]; simpl.
  - constructor; [simpl; tauto | constructor].
  - destruct (Ascii.eqb_spec c sep) as [->|Hne].
    + constructor; [simpl; tauto | exact IH].
    + destruct (GoStrings.Split sep r) as [|h t] eqn:Hs.
      * constructor; [simpl; intuition | constructor].
      * inversion IH as [|? ? Hh Ht]; subst.
        constructor; [simpl; intuition | exact Ht].
Qed.

Lemma Forall_last {A} (P : A -> Prop) (l : list A) (d : A) :
  Forall P l -> P d -> P (List.last l d).
Proof.
  induction l as [|x l IH]; intros Hl Hd; [exact Hd|].
  inversion Hl as [|? ? Hx Ht]; subst.
  destruct l as [|y l']; [exact Hx|]. apply IH; assumption.
Qed.

Lemma logIF_live l lm :
  logChanClosed l = false -> (length (logChan l) < logChanCap)%nat ->
  LogIF.logIF l lm = LogIF.GoReturn (set_logChan l (logChan l ++ [lm])).
Proof.
  intros Hc Hl. unfold LogIF.logIF, LogIF.logIF_with, LogIF.chan_send.
  rewrite Hc. apply Nat.ltb_lt in Hl. rewrite Hl. reflexivity.
Qed.

Lemma set_logChan_twice l q q' :
  set_logChan (set_logChan l q) q' = set_logChan l q'.
Proof. destruct l; reflexivity. Qed.

Lemma logIF_seq_app l xs ys :
  logIF_seq l (xs ++ ys) =
  match logIF_seq l xs with
  | LogIF.GoReturn l' => logIF_seq l' ys
  | o => o
  end.
Proof.
  revert l. induction xs as [|x xs IH]; intros l; simpl; [reflexivity|].
  destruct (LogIF.logIF l x); [apply IH | reflexivity | reflexivity].
Qed.

Lemma logIF_seq_live l lms :
  logChanClosed l = false ->
  (length (logChan l) + length lms <= logChanCap)%nat ->
  logIF_seq l lms = LogIF.GoReturn (set_logChan l (logChan l ++ lms)).
Proof.
  revert l. induction lms as [|lm rest IH]; intros l Hc Hl; simpl.
  - rewrite app_nil_r. destruct l; reflexivity.
  - simpl in Hl. rewrite logIF_live by (assumption || lia).
    rewrite IH; simpl.
    + rewrite set_logChan_twice, <- app_assoc. reflexivity.
    + exact Hc.
    + rewrite length_app. simpl. lia.
Qed.

(** logger.logMsg writes the record with the file part of the caller's
    path: the written file name never contains a '/'. *)
Theorem logMsg_records_base_name c file line p fmt a st r :
  logMsg c file line p fmt a st = Some r ->
  exists fname, r = RMsg p fname line fmt a st /\
    fname = GoStrings.path_Split_file file /\
    ~ In "/"%char (list_ascii_of_string fname).
Proof.
  intros H. apply logMsg_some_iff in H as (_ & _ & ->).
  eexists. split; [reflexivity|]. split; [reflexivity|].
  unfold GoStrings.path_Split_file.
  apply (Forall_last (fun x => ~ In "/"%char (list_ascii_of_string x))).
  - apply Split_parts_no_sep.
  - simpl. tauto.
Qed.

Lemma logMsg_records_base_name_witness :
  logMsg Samples.cfg_pkg "/src/main.go"%string 7 INFO "m"%string [] EmptyString
    = Some (RMsg INFO "main.go"%string 7 "m"%string [] EmptyString) /\
  exists fname, RMsg INFO "main.go"%string 7 "m"%string [] EmptyString
                  = RMsg INFO fname 7 "m"%string [] EmptyString /\
    fname = GoStrings.path_Split_file "/src/main.go"%string /\
    ~ In "/"%char (list_ascii_of_string fname).
Proof.
  split; [vm_compute; reflexivity|].
  apply (logMsg_records_base_name Samples.cfg_pkg "/src/main.go"%string 7 INFO
           "m"%string [] EmptyString).
  vm_compute. reflexivity.
Defined.

(** logger.isSuppressed at DEBUG and above: a file whose stem (the name
    before the ".go" extension, without dots) occurs in SuppressedFiles is
    suppressed, and logMsg drops its messages. *)
Theorem logMsg_drops_listed_stem c file stem line p fmt a st :
  GoStrings.path_Split_file file = String.append stem ".go"%string ->
  ~ In "."%char (list_ascii_of_string stem) ->
  SuppressedFiles c <> EmptyString ->
  GoStrings.Contains (SuppressedFiles c) stem = true ->
  DEBUG <= p ->
  isSuppressed c (GoStrings.path_Split_file file) p = true /\
  logMsg c file line p fmt a st = None.
Proof.
  intros Hf Hs He Hc Hp.
  assert (Hi : isSuppressed c (GoStrings.path_Split_file file) p = true).
  { unfold isSuppressed. rewrite Hf.
    destruct (Z.ltb_spec p DEBUG) as [Hlt|_]; [lia|].
    apply String.eqb_neq in He. rewrite He.
    change (String.append stem ".go"%string)
      with (String.append stem (String "."%char "go"%string)).
    rewrite Split_app_sep by exact Hs. exact Hc. }
  split; [exact Hi|].
  unfold logMsg. rewrite Hi, andb_false_r. reflexivity.
Qed.

Lemma logMsg_drops_listed_stem_witness :
  isSuppressed Samples.cfg_pkg
    (GoStrings.path_Split_file "/src/pkga.go"%string) DEBUG = true /\
  logMsg Samples.cfg_pkg "/src/pkga.go"%string 3 DEBUG "d"%string []
    EmptyString = None.
Proof.
  apply (logMsg_drops_listed_stem Samples.cfg_pkg "/src/pkga.go"%string
           "pkga"%string).
  - vm_compute. reflexivity.
  - simpl. intros H. repeat destruct H as [H|H]; try discriminate H; exact H.
  - discriminate.
  - vm_compute. reflexivity.
  - unfold DEBUG. lia.
Defined.

(** Successive logIF calls on a live logger whose logChan has room queue
    the messages in call order, and the flush writes them in that order;
    once logChan holds 1024 entries the next call blocks. *)
Theorem logIF_queues_in_order l lms :
  logChanClosed l = false ->
  (length (logChan l) + length lms <= logChanCap)%nat ->
  logIF_seq l lms = LogIF.GoReturn (set_logChan l (logChan l ++ lms)) /\
  wtr (flushLogMsgs (set_logChan l (logChan l ++ lms))) =
    wtr l ++ flushed (cfg l) (logChan l ++ lms) /\
  ((length (logChan l) + length lms)%nat = logChanCap ->
     forall lm, logIF_seq l (lms ++ [lm]) = LogIF.GoBlocked).
Proof.
  intros Hc Hl. pose proof (logIF_seq_live l lms Hc Hl) as Hs.
  split; [exact Hs|]. split.
  - rewrite flushLogMsgs_spec. reflexivity.
  - intros Hf lm. rewrite logIF_seq_app, Hs. simpl.
    unfold LogIF.logIF, LogIF.logIF_with, LogIF.chan_send. simpl.
    rewrite Hc, length_app, Hf. reflexivity.
Qed.

Lemma logIF_queues_in_order_witness :
  logChanClosed Samples.logger_one_debug = false /\
  (1 + 1 <= logChanCap)%nat /\
  logIF_seq Samples.logger_one_debug [Samples.lm_debug_main] =
    LogIF.GoReturn (set_logChan Samples.logger_one_debug
                      (logChan Samples.logger_one_debug ++
                       [Samples.lm_debug_main])) /\
  wtr (flushLogMsgs (set_logChan Samples.logger_one_debug
                       (logChan Samples.logger_one_debug ++
                        [Samples.lm_debug_main]))) =
    wtr Samples.logger_one_debug ++
    flushed (cfg Samples.logger_one_debug)
      (logChan Samples.logger_one_debug ++ [Samples.lm_debug_main]) /\
  ((length (logChan Samples.logger_one_debug) + 1)%nat = logChanCap ->
     forall lm, logIF_seq Samples.logger_one_debug
                  ([Samples.lm_debug_main] ++ [lm]) = LogIF.GoBlocked).
Proof.
  split; [reflexivity|]. split; [vm_compute; lia|].
  apply (logIF_queues_in_order Samples.logger_one_debug [Samples.lm_debug_main]).
  - reflexivity.
  - vm_compute. lia.
Defined.

Lemma logMsg_l_eq l file line p fmt a st :
  logMsg_l l file line p fmt a st =
  mkLogger (cfg l) (logChan l) (logChanClosed l)
    (wtr l ++ written (logMsg (cfg l) file line p fmt a st)).
Proof.
  unfold logMsg_l, write, send_wtr.
  destruct (logMsg _ _ _ _ _ _ _); simpl; [reflexivity|].
  rewrite app_nil_r. destruct l; reflexivity.
Qed.

(** One iteration of logger.run only appends to the requests sent to the
    FileSet; an iteration that ends the loop (Close, Exit, Panic) leaves
    logChan empty and closed, and its last request closes the FileSet. *)
Theorem run_step_extends_writer l ev o :
  run_step l ev = Some o ->
  (exists s, wtr (outcome_logger o) = wtr l ++ s) /\
  match o with
  | Running _ => True
  | Returned l' | OsExit _ l' =>
      logChan l' = [] /\ logChanClosed l' = true /\
      exists s, wtr l' = wtr l ++ s ++ [WClose]
  end.
Proof.
  destruct ev as [| m | | m | c | cm | | s]; cbn [run_step]; intros H.
  - injection H as <-. cbn [outcome_logger]. rewrite close_spec. simpl.
    split; [eexists; reflexivity|].
    split; [reflexivity | split; [reflexivity|]].
    exists (flushed (cfg l) (logChan l)). reflexivity.
  - injection H as <-. cbn [outcome_logger]. rewrite close_spec.
    unfold logExit, write, send_wtr. simpl.
    split; [eexists; rewrite <- app_assoc; reflexivity|].
    split; [reflexivity | split; [reflexivity|]].
    exists (WWrite (RExit (em_exitCode m) (GoStrings.path_Split_file (em_file m))
                       (em_line m) (em_msg m)) :: flushed (cfg l) (logChan l)).
    rewrite <- app_assoc. reflexivity.
  - destruct (logChan l) as [|lm rest]; [discriminate|].
    injection H as <-. cbn [outcome_logger]. rewrite logMsg_l_eq. simpl.
    split; [eexists; reflexivity | exact I].
  - injection H as <-. cbn [outcome_logger]. rewrite close_spec, logMsg_l_eq.
    simpl. split; [eexists; rewrite <- app_assoc; reflexivity|].
    split; [reflexivity | split; [reflexivity|]].
    exists (written (logMsg (cfg l) (pm_file m) (pm_line m) PANIC (pm_msg m) []
                      (pm_stacktrace m)) ++ flushed (cfg l) (logChan l)).
    rewrite !app_assoc. reflexivity.
  - destruct (negb (Equal (cfg l) c)); injection H as <-;
      cbn [outcome_logger]; (split; [|exact I]).
    + unfold logConfig, write, send_wtr. simpl.
      eexists. rewrite <- !app_assoc. reflexivity.
    + exists []. rewrite app_nil_r. reflexivity.
  - injection H as <-. cbn [outcome_logger]. split; [|exact I].
    unfold logConfig, write, send_wtr. rewrite flushLogMsgs_spec. simpl.
    eexists. rewrite <- !app_assoc. reflexivity.
  - injection H as <-. split; [exists []; rewrite app_nil_r; reflexivity | exact I].
  - injection H as <-. cbn [outcome_logger]. split; [|exact I].
    unfold logConfig, write. rewrite flushLogMsgs_spec. unfold send_wtr. simpl.
    eexists. rewrite <- !app_assoc. reflexivity.
Qed.

Lemma run_step_extends_writer_witness :
  run_step Samples.logger_one_debug EvClose =
    Some (Returned (close Samples.logger_one_debug)) /\
  (exists s, wtr (close Samples.logger_one_debug) =
             wtr Samples.logger_one_debug ++ s) /\
  (logChan (close Samples.logger_one_debug) = [] /\
   logChanClosed (close Samples.logger_one_debug) = true /\
   exists s, wtr (close Samples.logger_one_debug) =
             wtr Samples.logger_one_debug ++ s ++ [WClose]).
Proof.
  split; [reflexivity|].
  exact (run_step_extends_writer Samples.logger_one_debug EvClose
           (Returned (close Samples.logger_one_debug)) eq_refl).
Defined.

(** logger.run on Exit and Panic: the exit record, and the PANIC line when
    the priority threshold lets it through, are written before the
    messages still queued in logChan, which close then flushes; the FileSet
    is closed last. *)
Theorem exit_and_panic_written_before_queue l m pm :
  run_step l (EvExit m) =
    Some (OsExit (em_exitCode m)
            (mkLogger (cfg l) [] true
               (wtr l ++ WWrite (RExit (em_exitCode m)
                                   (GoStrings.path_Split_file (em_file m))
                                   (em_line m) (em_msg m))
                      :: flushed (cfg l) (logChan l) ++ [WClose]))) /\
  run_step l (EvPanic pm) =
    Some (OsExit 1
            (mkLogger (cfg l) [] true
               (wtr l ++
                (if PANIC <=? cfgPriority (cfg l)
                 then [WWrite (RMsg PANIC (GoStrings.path_Split_file (pm_file pm))
                                 (pm_line pm) (pm_msg pm) [] (pm_stacktrace pm))]
                 else []) ++ flushed (cfg l) (logChan l) ++ [WClose]))).
Proof.
  split.
  - cbn [run_step]. rewrite close_spec.
    unfold logExit, write, send_wtr. simpl. rewrite <- app_assoc. reflexivity.
  - cbn [run_step]. rewrite close_spec, logMsg_l_eq. simpl.
    rewrite <- app_assoc. unfold logMsg, isSuppressed. simpl.
    destruct (PANIC <=? cfgPriority (cfg l)); reflexivity.
Qed.

(** logger.run on Suppress: the new list replaces SuppressedFiles, the
    messages already queued are flushed under the new list, and the
    configuration is logged. *)
Theorem suppress_applies_to_queued l s :
  let c' := {| RootDir := RootDir (cfg l); FileName := FileName (cfg l);
               NumFiles := NumFiles (cfg l);
               FileNumBytes := FileNumBytes (cfg l);
               cfgPriority := cfgPriority (cfg l); SuppressedFiles := s |} in
  run_step l (EvSuppress s) =
    Some (Running (mkLogger c' [] (logChanClosed l)
                     (wtr l ++ flushed c' (logChan l) ++
                      [WWrite (RConfig c')]))).
Proof.
  intros c'. cbn [run_step]. unfold logConfig, write.
  rewrite flushLogMsgs_spec. unfold send_wtr. simpl.
  rewrite <- app_assoc. reflexivity.
Qed.

Lemma toJsonConfig_priority c jc :
  toJsonConfig c = Some jc ->
  Prio.String_of (cfgPriority c) = Some (ConfigFile.jPriority jc).
Proof.
  unfold toJsonConfig. destruct (Prio.String_of _); [|discriminate].
  intros H. injection H as <-. reflexivity.
Qed.

(** Config.ToJSON read back by jsonToConfig: RootDir, NumFiles,
    FileNumBytes and Priority come back unchanged (a non-empty RootDir),
    nothing is printed, FileName is the reader's own and SuppressedFiles,
    not written by ToJSON, comes back empty. *)
Theorem ToJSON_round_trip c fn jc :
  RootDir c <> EmptyString -> toJsonConfig c = Some jc ->
  ConfigFile.jsonToConfig fn jc =
    ({| RootDir := RootDir c; FileName := fn; NumFiles := NumFiles c;
        FileNumBytes := FileNumBytes c; cfgPriority := cfgPriority c;
        SuppressedFiles := EmptyString |}, []).
Proof.
  intros Hr Hj. pose proof (toJsonConfig_priority _ _ Hj) as Hs.
  assert (Hp : Prio.ToPriority (ConfigFile.jPriority jc) = (cfgPriority c, None)
               /\ String.eqb (ConfigFile.jPriority jc) EmptyString = false).
  { apply String_of_cases in Hs.
    destruct Hs as [[-> ->]|[[-> ->]|[[-> ->]|[[-> ->]|[-> ->]]]]];
      split; vm_compute; reflexivity. }
  destruct Hp as [Hp He].
  unfold toJsonConfig in Hj. destruct (Prio.String_of _); [|discriminate].
  injection Hj as <-.
  unfold ConfigFile.jsonToConfig. simpl in Hp, He |- *.
  apply String.eqb_neq in Hr. rewrite Hr, He, Hp. reflexivity.
Qed.

Lemma ToJSON_round_trip_witness :
  toJsonConfig Samples.cfg_pkg =
    Some (ConfigFile.mkJsonConfig "logs"%string (Some 3) (Some 1000000)
            "DEBUG"%string EmptyString) /\
  ConfigFile.jsonToConfig "app"%string
    (ConfigFile.mkJsonConfig "logs"%string (Some 3) (Some 1000000)
       "DEBUG"%string EmptyString) =
    ({| RootDir := RootDir Samples.cfg_pkg; FileName := "app"%string;
        NumFiles := NumFiles Samples.cfg_pkg;
        FileNumBytes := FileNumBytes Samples.cfg_pkg;
        cfgPriority := cfgPriority Samples.cfg_pkg;
        SuppressedFiles := EmptyString |}, []).
Proof.
  split; [vm_compute; reflexivity|].
  apply (ToJSON_round_trip Samples.cfg_pkg "app"%string).
  - discriminate.
  - vm_compute. reflexivity.
Defined.

(** Config.ToJSON panics (Priority.String on an undeclared value) exactly
    when the priority is not one of the five declared constants. *)
Theorem ToJSON_panics_iff_undeclared c :
  toJsonConfig c = None <-> ~ declared (cfgPriority c).
Proof.
  unfold toJsonConfig, declared.
  destruct (Prio.String_of (cfgPriority c)) as [name|] eqn:Hs.
  - split; [discriminate|]. intros Hn. exfalso. apply Hn.
    apply String_of_cases in Hs.
    destruct Hs as [[-> _]|[[-> _]|[[-> _]|[[-> _]|[-> _]]]]];
      unfold EXIT, PANIC, WARNING, INFO, DEBUG; lia.
  - split; [intros _|reflexivity]. intros Hd.
    assert (Hc : cfgPriority c = 0 \/ cfgPriority c = 1 \/ cfgPriority c = 2 \/
                 cfgPriority c = 3 \/ cfgPriority c = 4) by lia.
    destruct Hc as [E|[E|[E|[E|E]]]]; rewrite E in Hs; discriminate Hs.
Qed.


